(** * The projector's vbucket worker (secondary/projector/worker.go)

    A shallow embedding of [VbucketWorker]: the worker record, the command
    handler [handleCommand], the endpoint table computation
    [updateEndpoints], the event handler [handleEvent], the broadcast
    [broadcast2Endpoints], and the event loop [run] with its deferred
    shutdown.

    The worker is a single goroutine that owns all of its state, so the
    embedding is sequential: every method is a function from worker state to
    worker state.  Whatever the worker does to the outside world (sending to
    an endpoint, closing it, calling an engine, closing the termination
    channel, exiting the process) is appended to an observation log kept in
    the state ([trace]).  The two channels are modelled by the order in which
    the loop takes messages out of them (a schedule).

    Go ranges over maps in an unspecified order; the embedding ranges in the
    order of [map_to_list].  No proof below uses anything about that order
    beyond the fact that every key is visited once.

    Engines, endpoints and the payload builders of vbucket.go are code the
    worker calls; they are parameters of the embedding ([Collaborators]) and
    are taken to return: a panic inside one of them is not modelled.  The
    one panic of the worker's own code, the index into [collectionIds] of
    Remove Engines, is. *)

From stdpp Require Import base numbers option list gmap fin_maps strings pretty.

Set Default Proof Using "Type".

Module Projector.

(** ** Machine integers *)

(** [x++] on a uint64 counter, and [Uint64Val.Add(1)]. *)
Definition incr64 (x : N) : N := ((x + 1) mod 2 ^ 64)%N.

(** [float64(n)] for a uint64 [n], as the number the float stands for: [n]
    itself when it fits the 53 bits of the significand, and otherwise [n]
    rounded to 53 significant bits, to the nearest and on a tie to the even
    one.  The result is a whole number in every case. *)
Definition float64 (n : N) : N :=
  let bits := N.size n in
  if (bits <=? 53)%N then n
  else
    let sh := (bits - 53)%N in
    let q := N.shiftr n sh in
    let rem := N.land n (N.ones sh) in
    let half := N.shiftl 1 (sh - 1) in
    let q := if (half <? rem)%N || ((rem =? half)%N && N.odd q)
             then (q + 1)%N else q in
    N.shiftl q sh.

(** ** Events from the upstream feed *)

(** The opcodes [handleEvent] switches on; every other command code of the
    transport package falls through the switch ([DCP_OTHER]). *)
Inductive CommandCode :=
| DCP_STREAMREQ
| DCP_STREAMEND
| DCP_SNAPSHOT
| DCP_MUTATION
| DCP_DELETION
| DCP_EXPIRATION
| DCP_SYSTEM_EVENT
| DCP_SEQNO_ADVANCED
| DCP_OSO_SNAPSHOT
| DCP_OTHER (code : N).

(** The only status the worker tests for is [mcd.SUCCESS]. *)
Inductive Status :=
| SUCCESS
| NOT_SUCCESS (code : N).

#[global] Instance CommandCode_eq_dec : EqDecision CommandCode.
Proof. solve_decision. Defined.
#[global] Instance Status_eq_dec : EqDecision Status.
Proof. solve_decision. Defined.

(** Modelled from the spec: the change-feed event of section 6 ([mc.DcpEvent],
    declared in the dcp transport client), with the fields the worker reads:
    shard id, epoch id ([VBuuid]), sequence number, opcode, status,
    correlation id ([Opaque]), collection id, raw key, raw value and the
    value-encoding flag behind [m.IsJSON()]. *)
Record DcpEvent := mkDcpEvent {
  Opcode : CommandCode;
  Status_ : Status;
  VBucket : N;        (* uint16 *)
  Opaque : N;         (* uint16 *)
  VBuuid : N;         (* uint64 *)
  Seqno : N;          (* uint64 *)
  CollectionID : N;   (* uint32 *)
  Key : list Byte.byte;
  Value : list Byte.byte;
  IsJSON : bool
}.

(** [qvalue.NewParsedValueWithOptions(m.Value, true, true)] against
    [qvalue.NewBinaryValue(m.Value)]. *)
Inductive qvalue :=
| NewParsedValueWithOptions (raw : list Byte.byte)
| NewBinaryValue (raw : list Byte.byte).

(** A byte slice: its contents and its capacity. *)
Record Buf := mkBuf {
  bytes : list Byte.byte;
  cap : N
}.

(** [newBuf[:0]]: same backing array, length zero. *)
Definition reslice0 (b : Buf) : Buf := {| bytes := []; cap := cap b |}.

(** ** Per-shard stream state *)

(** Modelled from the spec: the shard stream state of section 3 ([Vbucket],
    declared in vbucket.go), extended with the correlation ids that
    worker.go reads from it ([v.opaque]) and passes to its constructor. *)
Record Vbucket := mkVbucket {
  vbno : N;            (* uint16 *)
  vbuuid : N;          (* uint64 *)
  seqno : N;           (* uint64 *)
  opaque : N;          (* uint16 *)
  v_opaque2 : N;       (* uint64 *)
  syncCount : N;
  sshotCount : N;
  mutationCount : N
}.

(** Modelled from the spec: [NewVbucket], the constructor of the shard
    state ("create state with the shard's epoch id and starting sequence
    number"); the counters start at zero.  The cluster, topic, bucket,
    keyspace and config arguments only feed the log prefix. *)
Definition NewVbucket (cluster topic bucket keyspaceId : string)
    (opq vbn vbuuid_ seqno_ opq2 : N) : Vbucket :=
  {| vbno := vbn; vbuuid := vbuuid_; seqno := seqno_; opaque := opq;
     v_opaque2 := opq2; syncCount := 0; sshotCount := 0; mutationCount := 0 |}.

Definition set_seqno (s : N) (v : Vbucket) : Vbucket :=
  {| vbno := vbno v; vbuuid := vbuuid v; seqno := s; opaque := opaque v;
     v_opaque2 := v_opaque2 v; syncCount := syncCount v;
     sshotCount := sshotCount v; mutationCount := mutationCount v |}.

Definition incr_syncCount (v : Vbucket) : Vbucket :=
  {| vbno := vbno v; vbuuid := vbuuid v; seqno := seqno v; opaque := opaque v;
     v_opaque2 := v_opaque2 v; syncCount := incr64 (syncCount v);
     sshotCount := sshotCount v; mutationCount := mutationCount v |}.

Definition incr_sshotCount (v : Vbucket) : Vbucket :=
  {| vbno := vbno v; vbuuid := vbuuid v; seqno := seqno v; opaque := opaque v;
     v_opaque2 := v_opaque2 v; syncCount := syncCount v;
     sshotCount := incr64 (sshotCount v); mutationCount := mutationCount v |}.

Definition incr_mutationCount (v : Vbucket) : Vbucket :=
  {| vbno := vbno v; vbuuid := vbuuid v; seqno := seqno v; opaque := opaque v;
     v_opaque2 := v_opaque2 v; syncCount := syncCount v;
     sshotCount := sshotCount v; mutationCount := incr64 (mutationCount v) |}.

(** ** Worker statistics *)

Record WorkerStats := mkWorkerStats {
  closed : bool;
  outgoingMut : N;   (* Number of mutations consumed from this worker *)
  updateSeqno : N    (* Number of updateSeqno messages sent by this worker *)
}.

(** [WorkerStats.Init]. *)
Definition Init : WorkerStats :=
  {| closed := false; outgoingMut := 0; updateSeqno := 0 |}.

Definition IsClosed (st : WorkerStats) : bool := closed st.

Section Worker.

(** The collaborators the worker only calls: engines ([*Engine]), network
    sinks ([c.RouterEndpoint]) and the payloads handed to them
    ([interface{}]). *)
Context {Engine RouterEndpoint Data : Type}.

(** ** What the worker does to the outside world *)

Inductive Effect :=
| EPublish (data : Data)
    (* broadcast2Endpoints(data) entered *)
| ESend (raddr : string) (data : Data) (failed : bool)
    (* endpoint.Send(data) on worker.endpoints[raddr]; [failed] is err != nil *)
| EClose (raddr : string)
    (* endpoint.Close() *)
| ETransform (uuid : N) (failed : bool)
    (* engine.TransformRoute(...) of the engine installed under uuid *)
| ECloseFinch
    (* close(worker.finch) *)
| ESetClosed
    (* worker.stats.closed.Set(true) *)
| EExit.
    (* os.Exit(1) *)

(** ** The worker *)

Record VbucketWorker := mkWorker {
  id : N;
  cluster : string;
  topic : string;
  bucket : string;
  keyspaceId : string;
  w_opaque : N;                                    (* uint16 *)
  vbuckets : gmap N Vbucket;
  engines : gmap N (gmap N Engine);                (* CollectionId -> instanceId -> engine *)
  endpoints : gmap string RouterEndpoint;
  finch : bool;                                    (* true once closed *)
  opaque2 : N;                                     (* uint64 *)
  encodeBuf : Buf;
  stats : WorkerStats;
  trace : list Effect
}.

Definition set_vbuckets (f : gmap N Vbucket → gmap N Vbucket)
    (w : VbucketWorker) : VbucketWorker :=
  {| id := id w; cluster := cluster w; topic := topic w; bucket := bucket w;
     keyspaceId := keyspaceId w; w_opaque := w_opaque w;
     vbuckets := f (vbuckets w); engines := engines w;
     endpoints := endpoints w; finch := finch w; opaque2 := opaque2 w;
     encodeBuf := encodeBuf w; stats := stats w; trace := trace w |}.

Definition set_engines (f : gmap N (gmap N Engine) → gmap N (gmap N Engine))
    (w : VbucketWorker) : VbucketWorker :=
  {| id := id w; cluster := cluster w; topic := topic w; bucket := bucket w;
     keyspaceId := keyspaceId w; w_opaque := w_opaque w;
     vbuckets := vbuckets w; engines := f (engines w);
     endpoints := endpoints w; finch := finch w; opaque2 := opaque2 w;
     encodeBuf := encodeBuf w; stats := stats w; trace := trace w |}.

Definition set_endpoints
    (f : gmap string RouterEndpoint → gmap string RouterEndpoint)
    (w : VbucketWorker) : VbucketWorker :=
  {| id := id w; cluster := cluster w; topic := topic w; bucket := bucket w;
     keyspaceId := keyspaceId w; w_opaque := w_opaque w;
     vbuckets := vbuckets w; engines := engines w;
     endpoints := f (endpoints w); finch := finch w; opaque2 := opaque2 w;
     encodeBuf := encodeBuf w; stats := stats w; trace := trace w |}.

Definition set_finch (b : bool) (w : VbucketWorker) : VbucketWorker :=
  {| id := id w; cluster := cluster w; topic := topic w; bucket := bucket w;
     keyspaceId := keyspaceId w; w_opaque := w_opaque w;
     vbuckets := vbuckets w; engines := engines w;
     endpoints := endpoints w; finch := b; opaque2 := opaque2 w;
     encodeBuf := encodeBuf w; stats := stats w; trace := trace w |}.

Definition set_encodeBuf (b : Buf) (w : VbucketWorker) : VbucketWorker :=
  {| id := id w; cluster := cluster w; topic := topic w; bucket := bucket w;
     keyspaceId := keyspaceId w; w_opaque := w_opaque w;
     vbuckets := vbuckets w; engines := engines w;
     endpoints := endpoints w; finch := finch w; opaque2 := opaque2 w;
     encodeBuf := b; stats := stats w; trace := trace w |}.

Definition set_stats (f : WorkerStats → WorkerStats)
    (w : VbucketWorker) : VbucketWorker :=
  {| id := id w; cluster := cluster w; topic := topic w; bucket := bucket w;
     keyspaceId := keyspaceId w; w_opaque := w_opaque w;
     vbuckets := vbuckets w; engines := engines w;
     endpoints := endpoints w; finch := finch w; opaque2 := opaque2 w;
     encodeBuf := encodeBuf w; stats := f (stats w); trace := trace w |}.

(** Append one observation to the log. *)
Definition emit (e : Effect) (w : VbucketWorker) : VbucketWorker :=
  {| id := id w; cluster := cluster w; topic := topic w; bucket := bucket w;
     keyspaceId := keyspaceId w; w_opaque := w_opaque w;
     vbuckets := vbuckets w; engines := engines w;
     endpoints := endpoints w; finch := finch w; opaque2 := opaque2 w;
     encodeBuf := encodeBuf w; stats := stats w; trace := trace w ++ [e] |}.

Definition add_outgoingMut (st : WorkerStats) : WorkerStats :=
  {| closed := closed st; outgoingMut := incr64 (outgoingMut st);
     updateSeqno := updateSeqno st |}.

Definition add_updateSeqno (st : WorkerStats) : WorkerStats :=
  {| closed := closed st; outgoingMut := outgoingMut st;
     updateSeqno := incr64 (updateSeqno st) |}.

Definition set_closed (b : bool) (st : WorkerStats) : WorkerStats :=
  {| closed := b; outgoingMut := outgoingMut st;
     updateSeqno := updateSeqno st |}.

(** ** The code the worker calls but does not contain

    Engines, endpoints and the payload builders of vbucket.go are taken as
    parameters.  [Send] may answer differently at every call: it is given
    the log of everything the worker has done so far.  Each payload builder
    returns [None] where the Go method returns a nil [interface{}]. *)
Record Collaborators := {
  GetCollectionID : Engine → string;
  getCidAsUint32 : string → N;
  Endpoints : Engine → list string;
  (* TransformRoute(vbuuid, m, data, encodeBuf, docval, context,
                    numIndexes, opaque2) (newBuf, err);
     the per-endpoint accumulator it fills is passed and returned *)
  TransformRoute : Engine → N → DcpEvent → gmap string Data → Buf → qvalue →
                   nat → N → gmap string Data * Buf * bool;
  Send : list Effect → string → RouterEndpoint → Data → bool;
  mcStatus2StreamStatus : Vbucket → Status → N;
  statusByte : Status → N;
  makeStreamBeginData : Vbucket → gmap N (gmap N Engine) → N → N → option Data;
  makeSyncData : Vbucket → gmap N (gmap N Engine) → option Data;
  makeSnapshotData : Vbucket → DcpEvent → gmap N (gmap N Engine) → option Data;
  makeUpdateSeqnoData : Vbucket → DcpEvent → gmap N (gmap N Engine) → option Data;
  makeSystemEventData : Vbucket → DcpEvent → gmap N (gmap N Engine) → option Data;
  makeSeqnoAdvancedEvent : Vbucket → DcpEvent → gmap N (gmap N Engine) → option Data;
  makeOSOSnapshotEvent : Vbucket → DcpEvent → gmap N (gmap N Engine) → option Data;
  makeStreamEndData : Vbucket → gmap N (gmap N Engine) → option Data
}.

Variable X : Collaborators.

(** [NewVbucketWorker], without the channels and the goroutine it spawns. *)
Definition NewVbucketWorker (id_ : N) (cluster_ topic_ bucket_ keyspaceId_ : string)
    (opq : N) (encodeBufSize : N) (opq2 : N) : VbucketWorker :=
  {| id := id_; cluster := cluster_; topic := topic_; bucket := bucket_;
     keyspaceId := keyspaceId_; w_opaque := opq;
     vbuckets := ∅; engines := ∅; endpoints := ∅; finch := false;
     opaque2 := opq2;
     encodeBuf := {| bytes := []; cap := encodeBufSize |};
     stats := Init; trace := [] |}.

(** ** Routing and broadcast *)

(** One [endpoint.Send(data)] with its error branch: on failure the endpoint
    is closed and deleted from [worker.endpoints]. *)
Definition sendTo (raddr : string) (endpoint : RouterEndpoint) (data : Data)
    (w : VbucketWorker) : VbucketWorker :=
  let failed := Send X (trace w) raddr endpoint data in
  let w := emit (ESend raddr data failed) w in
  if failed then set_endpoints (delete raddr) (emit (EClose raddr) w) else w.

(** [broadcast2Endpoints]: send to all endpoints. *)
Definition broadcast2Endpoints (data : Data) (w : VbucketWorker) : VbucketWorker :=
  foldl (λ w re, sendTo re.1 re.2 data w) (emit (EPublish data) w)
    (map_to_list (endpoints w)).

(** The recurring [if data := v.makeX(...); data != nil { broadcast } else
    { log "NOT PUBLISHED" }]. *)
Definition publish (data : option Data) (w : VbucketWorker) : VbucketWorker :=
  match data with
  | Some d => broadcast2Endpoints d w
  | None => w
  end.

(** [updateEndpoints]: only endpoints that host engines defined on this
    vbucket.  The three nested range loops; an address missing from [eps]
    is logged and skipped. *)
Definition updateEndpoints (w : VbucketWorker) (opq : N)
    (eps : gmap string RouterEndpoint) : gmap string RouterEndpoint :=
  foldl (λ endpoints ce,
    foldl (λ endpoints ue,
      foldl (λ endpoints raddr,
        match eps !! raddr with
        | None => endpoints
        | Some ep => <[raddr := ep]> endpoints
        end) endpoints (Endpoints X ue.2))
      endpoints (map_to_list ce.2))
    ∅ (map_to_list (engines w)).

(** ** Event handling *)

(** The value handed to the engines: parsed when the event declares JSON,
    opaque otherwise. *)
Definition docval (m : DcpEvent) : qvalue :=
  if IsJSON m then NewParsedValueWithOptions (Value m)
  else NewBinaryValue (Value m).

(** One round of [for _, engine := range engines] inside [processMutation]:
    the engine adds its fragments to [dataForEndpoints]; a transform error
    is only logged; the scratch buffer is kept when it grew. *)
Definition transformOne (v : Vbucket) (m : DcpEvent) (numEngines : nat)
    (acc : gmap string Data * VbucketWorker) (ue : N * Engine)
    : gmap string Data * VbucketWorker :=
  let '(dataForEndpoints, w) := acc in
  let '(dataForEndpoints, newBuf, err) :=
    TransformRoute X ue.2 (vbuuid v) m dataForEndpoints (encodeBuf w)
      (docval m) numEngines (opaque2 w) in
  let w := emit (ETransform ue.1 err) w in
  let w := if (cap (encodeBuf w) <? cap newBuf)%N
           then set_encodeBuf (reslice0 newBuf) w else w in
  (dataForEndpoints, w).

(** One round of [for raddr, data := range dataForEndpoints]: send data to
    the corresponding endpoint, when the worker knows it. *)
Definition deliverOne (w : VbucketWorker) (rd : string * Data) : VbucketWorker :=
  match endpoints w !! rd.1 with
  | Some endpoint => sendTo rd.1 endpoint rd.2 w
  | None => w
  end.

Definition deliver (dataForEndpoints : gmap string Data)
    (w : VbucketWorker) : VbucketWorker :=
  foldl deliverOne w (map_to_list dataForEndpoints).

(** The first loop of [processMutation]: for each engine distribute
    transformations to endpoints; [len(engines)] is the size hint. *)
Definition transformAll (v : Vbucket) (m : DcpEvent)
    (engs : gmap N Engine) (w : VbucketWorker)
    : gmap string Data * VbucketWorker :=
  foldl (transformOne v m (size engs)) (∅, w) (map_to_list engs).

(** The closure [processMutation] of [handleEvent]. *)
Definition processMutation (v : Vbucket) (m : DcpEvent)
    (engs : gmap N Engine) (w : VbucketWorker) : VbucketWorker :=
  let '(dataForEndpoints, w) := transformAll v m engs w in
  deliver dataForEndpoints w.

(** [handleEvent]: the worker after the event, and the [*Vbucket] returned
    ([None] for nil).  A [*Vbucket] is a pointer into [worker.vbuckets];
    every write through it is written back at the key it was read from. *)
Definition handleEvent (m : DcpEvent) (w : VbucketWorker)
    : VbucketWorker * option Vbucket :=
  let vbno_ := VBucket m in
  match Opcode m with
  | DCP_STREAMREQ =>
      match Status_ m, vbuckets w !! vbno_ with
      | SUCCESS, Some v => (w, Some v)   (* duplicate OpStreamRequest *)
      | st, _ =>
          let v := NewVbucket (cluster w) (topic w) (bucket w) (keyspaceId w)
                     (Opaque m) vbno_ (VBuuid m) (Seqno m) (opaque2 w) in
          let w := match st with
                   | SUCCESS => set_vbuckets (<[vbno_ := v]>) w
                   | NOT_SUCCESS _ => w
                   end in
          (publish (makeStreamBeginData X v (engines w)
                      (mcStatus2StreamStatus X v st) (statusByte X st)) w,
           Some v)
      end
  | DCP_SNAPSHOT =>
      match vbuckets w !! vbno_ with
      | None => (w, None)                (* vbucket not started *)
      | Some v =>
          match makeSnapshotData X v m (engines w) with
          | Some data =>
              let w := broadcast2Endpoints data w in
              let v := incr_sshotCount v in
              (set_vbuckets (<[vbno_ := v]>) w, Some v)
          | None => (w, Some v)
          end
      end
  | DCP_MUTATION | DCP_DELETION | DCP_EXPIRATION =>
      match vbuckets w !! vbno_ with
      | None => (w, None)
      | Some v =>
          let v := set_seqno (Seqno m) (incr_mutationCount v) in
          let w := set_vbuckets (<[vbno_ := v]>) w in
          match engines w !! CollectionID m with
          | Some engs => (processMutation v m engs w, Some v)
          | None =>
              let w := set_stats add_updateSeqno w in
              (publish (makeUpdateSeqnoData X v m (engines w)) w, Some v)
          end
      end
  | DCP_SYSTEM_EVENT =>
      match vbuckets w !! vbno_ with
      | None => (w, None)
      | Some v =>
          let v := set_seqno (Seqno m) v in
          let w := set_vbuckets (<[vbno_ := v]>) w in
          (publish (makeSystemEventData X v m (engines w)) w, Some v)
      end
  | DCP_SEQNO_ADVANCED =>
      match vbuckets w !! vbno_ with
      | None => (w, None)
      | Some v =>
          let v := set_seqno (Seqno m) v in
          let w := set_vbuckets (<[vbno_ := v]>) w in
          (publish (makeSeqnoAdvancedEvent X v m (engines w)) w, Some v)
      end
  | DCP_OSO_SNAPSHOT =>
      match vbuckets w !! vbno_ with
      | None => (w, None)
      | Some v => (publish (makeOSOSnapshotEvent X v m (engines w)) w, Some v)
      end
  | DCP_STREAMEND =>
      match vbuckets w !! vbno_ with
      | None => (w, None)
      | Some v =>
          let w := publish (makeStreamEndData X v (engines w)) w in
          (set_vbuckets (delete vbno_) w, Some v)
      end
  | DCP_OTHER _ => (w, vbuckets w !! vbno_)
  end.

(** ** Commands *)

(** The messages of the command channel.  A message is a
    [[]interface{}]; [AddEngines] stores its two map arguments in it, and
    the handler compares the slots with nil.  A slot that holds a map value
    is not a nil interface even when the map is nil, so the two arguments
    are options: [None] is a slot that holds no value at all, [Some m] a
    slot that holds the map [m] (a nil map reads as the empty map). *)
Inductive Command :=
| vwCmdGetVbuckets
| vwCmdAddEngines (opq : N) (engs : option (gmap N Engine))
    (eps : option (gmap string RouterEndpoint))
| vwCmdDelEngines (opq : N) (engineKeys : list N) (collectionIds : list N)
| vwCmdGetStats
| vwCmdResetConfig
| vwCmdClose.

(** What is written to the response channel. *)
Inductive Response :=
| RVbuckets (vbs : list Vbucket)
| RSeqnos (cseqnos : gmap N N)
| RStats (statistics : gmap string (N * N * N))   (* syncs, snapshots, mutations, as float64 *)
| RNil.

(** The message [AddEngines] posts. *)
Definition AddEngines (opq : N) (engs : gmap N Engine)
    (eps : gmap string RouterEndpoint) : Command :=
  vwCmdAddEngines opq (Some engs) (Some eps).

(** The message [DeleteEngines] posts. *)
Definition DeleteEngines (opq : N) (engs : list N) (collectionIds : list N)
    : Command :=
  vwCmdDelEngines opq engs collectionIds.

(** [worker.engines[cid][uuid] = engine], creating the inner map on first
    use. *)
Definition addEngine (engs : gmap N (gmap N Engine)) (ue : N * Engine)
    : gmap N (gmap N Engine) :=
  let cid := getCidAsUint32 X (GetCollectionID X ue.2) in
  <[cid := <[ue.1 := ue.2]> (default ∅ (engs !! cid))]> engs.

(** [delete(worker.engines[cid], uuid)], then drop the collection when it
    has no engine left. *)
Definition delEngine (engs : gmap N (gmap N Engine)) (cid uuid : N)
    : gmap N (gmap N Engine) :=
  match engs !! cid with
  | None => engs
  | Some inner =>
      let inner := delete uuid inner in
      if decide (size inner = 0) then delete cid engs
      else <[cid := inner]> engs
  end.

(** [for i, uuid := range engineKeys { cid := collectionIds[i]; ... }];
    [None] when [collectionIds[i]] is out of range (a run-time panic). *)
Fixpoint delEngines (engs : gmap N (gmap N Engine)) (i : nat)
    (engineKeys : list N) (collectionIds : list N)
    : option (gmap N (gmap N Engine)) * gmap N (gmap N Engine) :=
  match engineKeys with
  | [] => (Some engs, engs)
  | uuid :: rest =>
      match collectionIds !! i with
      | None => (None, engs)
      | Some cid => delEngines (delEngine engs cid uuid) (S i) rest collectionIds
      end
  end.

(** [cseqnos[v.vbno] = v.seqno] for every vbucket of the worker. *)
Definition cseqnos (w : VbucketWorker) : gmap N N :=
  foldl (λ acc kv, <[vbno kv.2 := seqno kv.2]> acc) ∅
    (map_to_list (vbuckets w)).

(** The per-vbucket statistics, keyed by [strconv.Itoa(int(vbno))]; every
    count is converted to a float64. *)
Definition statistics (w : VbucketWorker) : gmap string (N * N * N) :=
  foldl (λ acc kv,
           <[pretty kv.1 := (float64 (syncCount kv.2),
                             float64 (sshotCount kv.2),
                             float64 (mutationCount kv.2))]> acc)
    ∅ (map_to_list (vbuckets w)).

(** How a handler leaves the loop body. *)
Inductive Flow :=
| Next        (* keep looping *)
| BreakLoop   (* break loop *)
| Panic.      (* a run-time panic, recovered by the deferred function of run *)

(** [handleCommand]: the worker after the command, the response sent (if
    one was sent) and whether the loop goes on. *)
Definition handleCommand (cmd : Command) (w : VbucketWorker)
    : VbucketWorker * option Response * Flow :=
  match cmd with
  | vwCmdGetVbuckets =>
      (w, Some (RVbuckets (map_to_list (vbuckets w)).*2), Next)
  | vwCmdAddEngines opq engs eps =>
      let w := set_engines (λ _, ∅) w in
      let w := match engs with
               | Some engs =>
                   set_engines (λ cur, foldl addEngine cur (map_to_list engs)) w
               | None => w
               end in
      let w := match eps with
               | Some eps => set_endpoints (λ _, updateEndpoints w opq eps) w
               | None => w
               end in
      (w, Some (RSeqnos (cseqnos w)), Next)
  | vwCmdDelEngines opq engineKeys collectionIds =>
      match delEngines (engines w) 0 engineKeys collectionIds with
      | (Some _, engs) => (set_engines (λ _, engs) w, Some RNil, Next)
      | (None, engs) => (set_engines (λ _, engs) w, None, Panic)
      end
  | vwCmdGetStats => (w, Some (RStats (statistics w)), Next)
  | vwCmdResetConfig => (w, Some RNil, Next)
  | vwCmdClose => (w, Some RNil, BreakLoop)
  end.

(** ** The event loop *)

(** The messages of the data channel. *)
Inductive DataMsg :=
| vwCmdEvent (m : DcpEvent)
| vwCmdSyncPulse.

(** What the loop takes next: from the command channel or the data
    channel. *)
Inductive Msg :=
| FromSbch (cmd : Command)
| FromDatach (d : DataMsg).

(** How far the worker got. *)
Inductive Outcome :=
| Running (w : VbucketWorker)      (* in the loop, waiting for a message *)
| Terminated (w : VbucketWorker)   (* run returned, the deferred function ran *)
| Exited (w : VbucketWorker).      (* os.Exit(1): the process is gone *)

(** [case vwCmdEvent] of the loop: handle the event, then look at the
    vbucket it returned. *)
Definition runEvent (m : DcpEvent) (w : VbucketWorker)
    : VbucketWorker * bool :=
  let w := set_stats add_outgoingMut w in
  let '(w, ov) := handleEvent m w in
  match ov with
  | None => (w, false)                          (* nil vbucket: logged *)
  | Some v =>
      if decide (Opcode m = DCP_STREAMEND)
      then (set_vbuckets (delete (vbno v)) w, false)
      else if decide (Opaque m = opaque v) then (w, false)
      else (emit EExit w, true)                 (* os.Exit(1) *)
  end.

(** One round of [case vwCmdSyncPulse]. *)
Definition syncOne (w : VbucketWorker) (kv : N * Vbucket) : VbucketWorker :=
  match makeSyncData X kv.2 (engines w) with
  | Some data =>
      broadcast2Endpoints data
        (set_vbuckets (<[kv.1 := incr_syncCount kv.2]>) w)
  | None => w
  end.

Definition syncPulse (w : VbucketWorker) : VbucketWorker :=
  foldl syncOne w (map_to_list (vbuckets w)).

(** The deferred function of [run]: call out a STREAM-END for active
    vbuckets, then close [finch] and set the closed flag. *)
Definition shutdown (w : VbucketWorker) : VbucketWorker :=
  let w := foldl (λ w kv, publish (makeStreamEndData X kv.2 (engines w)) w)
             w (map_to_list (vbuckets w)) in
  let w := set_finch true (emit ECloseFinch w) in
  set_stats (set_closed true) (emit ESetClosed w).

(** One iteration of the loop on the message it took. *)
Definition step (msg : Msg) (w : VbucketWorker) : Outcome :=
  match msg with
  | FromSbch cmd =>
      match handleCommand cmd w with
      | (w, _, Next) => Running w
      | (w, _, BreakLoop) => Terminated (shutdown w)
      | (w, _, Panic) => Terminated (shutdown w)
      end
  | FromDatach (vwCmdEvent m) =>
      let '(w, exit) := runEvent m w in
      if exit then Exited w else Running w
  | FromDatach vwCmdSyncPulse => Running (syncPulse w)
  end.

(** [run] on the messages in the order the loop takes them.  Messages
    still queued when the worker stops are never looked at. *)
Fixpoint run (msgs : list Msg) (w : VbucketWorker) : Outcome :=
  match msgs with
  | [] => Running w
  | msg :: rest =>
      match step msg w with
      | Running w => run rest w
      | o => o
      end
  end.

(** The worker inside an outcome. *)
Definition worker_of (o : Outcome) : VbucketWorker :=
  match o with Running w | Terminated w | Exited w => w end.


(** ** Reading the observation log *)

(** The payloads sent to [raddr], in order, each with the outcome of its
    [Send]. *)
Definition sendsTo (raddr : string) (tr : list Effect) : list (Data * bool) :=
  omap (λ e, match e with
             | ESend r d failed =>
                 if decide (r = raddr) then Some (d, failed) else None
             | _ => None
             end) tr.

(** The payloads handed to [broadcast2Endpoints], in order. *)
Definition publications (tr : list Effect) : list Data :=
  omap (λ e, match e with EPublish d => Some d | _ => None end) tr.

(** The engines whose [TransformRoute] was called, in order. *)
Definition transforms (tr : list Effect) : list N :=
  omap (λ e, match e with ETransform uuid _ => Some uuid | _ => None end) tr.

(** An observation that belongs to a delivery: sending a payload [P]
    allows, or closing an endpoint. *)
Definition isDelivery (P : string → Data → Prop) (e : Effect) : Prop :=
  match e with
  | ESend r d _ => P r d
  | EClose _ => True
  | _ => False
  end.

(** A call of an engine. *)
Definition isTransform (e : Effect) : Prop :=
  match e with ETransform _ _ => True | _ => False end.

(** A publication of a payload [P] allows, or a delivery of one. *)
Definition isBroadcastOf (P : Data → Prop) (e : Effect) : Prop :=
  match e with
  | EPublish d => P d
  | ESend _ d _ => P d
  | EClose _ => True
  | _ => False
  end.

(** Everything of the worker that a delivery cannot touch. *)
Definition core (w : VbucketWorker) :=
  (id w, cluster w, topic w, bucket w, keyspaceId w, w_opaque w,
   vbuckets w, engines w, finch w, opaque2 w, encodeBuf w, stats w).

(** Every shard state is stored under its own shard id. *)
Definition keyed (w : VbucketWorker) : Prop :=
  ∀ k v, vbuckets w !! k = Some v → vbno v = k.

(** The engine installed under a collection id and an engine id. *)
Definition lookupEngine (engs : gmap N (gmap N Engine)) (cid uuid : N)
    : option Engine :=
  engs !! cid ≫= (λ inner, inner !! uuid).

(** Every address the installed engines name, with repetitions. *)
Definition allRaddrs (engs : gmap N (gmap N Engine)) : list string :=
  map_to_list engs ≫= (λ ce, map_to_list ce.2 ≫= (λ ue, Endpoints X ue.2)).

(** The address is referenced by an installed engine. *)
Definition referenced (engs : gmap N (gmap N Engine)) (raddr : string) : Prop :=
  ∃ cid inner uuid e,
    engs !! cid = Some inner ∧ inner !! uuid = Some e ∧ raddr ∈ Endpoints X e.

(** The opcodes of section 4.2, grouped as the claims group them. *)
Definition isMutation (op : CommandCode) : bool :=
  match op with
  | DCP_MUTATION | DCP_DELETION | DCP_EXPIRATION => true
  | _ => false
  end.

Definition advancesSeqno (op : CommandCode) : bool :=
  match op with
  | DCP_MUTATION | DCP_DELETION | DCP_EXPIRATION
  | DCP_SYSTEM_EVENT | DCP_SEQNO_ADVANCED => true
  | _ => false
  end.

Definition isDataEvent (op : CommandCode) : bool :=
  match op with
  | DCP_SNAPSHOT | DCP_MUTATION | DCP_DELETION | DCP_EXPIRATION
  | DCP_SYSTEM_EVENT | DCP_SEQNO_ADVANCED | DCP_OSO_SNAPSHOT => true
  | _ => false
  end.


(** The messages that hand the worker a candidate endpoint set. *)
Definition installsEndpoints (msg : Msg) : bool :=
  match msg with
  | FromSbch (vwCmdAddEngines _ _ (Some _)) => true
  | _ => false
  end.

(** The messages that change the engine map. *)
Definition changesEngines (msg : Msg) : bool :=
  match msg with
  | FromSbch (vwCmdAddEngines _ _ _) => true
  | FromSbch (vwCmdDelEngines _ _ _) => true
  | _ => false
  end.

End Worker.

(** ** More ways to read a worker *)

(** No collection of the engine map is left without an engine. *)
Definition noEmptyCollection {Engine : Type}
    (engs : gmap N (gmap N Engine)) : Prop :=
  ∀ cid inner, engs !! cid = Some inner → inner ≠ ∅.

(** The events among the messages the loop took. *)
Definition isEvent {Engine RouterEndpoint : Type}
    (msg : @Msg Engine RouterEndpoint) : bool :=
  match msg with
  | FromDatach (vwCmdEvent _) => true
  | _ => false
  end.

(** What [GetStatistics] reports for one shard. *)
Definition counters (v : Vbucket) : N * N * N :=
  (float64 (syncCount v), float64 (sshotCount v), float64 (mutationCount v)).

(** ** Partition instances (indexer/partition_instance.go) *)

Section Partitions.

(** [common.PartitionDefn] and [SliceContainer] are interfaces declared
    elsewhere; of a definition only its partition id is read here. *)
Context {PartitionDefn SliceContainer : Type}.
Variable GetPartitionId : PartitionDefn → N.

(** [PartitionInst] contains the partition definition and a
    [SliceContainer] to manage all the slices storing the partition's
    data. *)
Record PartitionInst := mkPartitionInst {
  Defn : PartitionDefn;
  Sc : SliceContainer
}.

(** [s[i]] for an [int] index: [None] where Go panics (index out of
    range). *)
Definition at_index {A} (s : list A) (i : Z) : option A :=
  if decide (0 ≤ i)%Z then s !! Z.to_nat i else None.

(** [partitionInstList.Len]. *)
Definition Len (s : list PartitionInst) : Z := Z.of_nat (length s).

(** [partitionInstList.Swap]: [s[i], s[j] = s[j], s[i]]. *)
Definition Swap (s : list PartitionInst) (i j : Z)
    : option (list PartitionInst) :=
  match at_index s j, at_index s i with
  | Some sj, Some si => Some (<[Z.to_nat j := si]> (<[Z.to_nat i := sj]> s))
  | _, _ => None
  end.

(** [partitionInstList.Less]. *)
Definition Less (s : list PartitionInst) (i j : Z) : option bool :=
  match at_index s i, at_index s j with
  | Some si, Some sj =>
      Some (GetPartitionId (Defn si) <? GetPartitionId (Defn sj))%N
  | _, _ => None
  end.

(** [CopyIndexPartnMap]: a fresh outer map with a fresh inner map for
    every index instance. *)
Definition CopyIndexPartnMap (inMap : gmap N (gmap N PartitionInst))
    : gmap N (gmap N PartitionInst) :=
  foldl (λ outMap kv,
           <[kv.1 := foldl (λ pmap ii, <[ii.1 := ii.2]> pmap) ∅
                       (map_to_list kv.2)]> outMap)
    ∅ (map_to_list inMap).

End Partitions.

Arguments Effect : clear implicits.
Arguments VbucketWorker : clear implicits.
Arguments Collaborators : clear implicits.
Arguments Command : clear implicits.
Arguments Msg : clear implicits.
Arguments Outcome : clear implicits.

(** ** A small deployment to run the worker on

    Engines that route to a fixed list of addresses, endpoints that are
    either reachable or not, and payload builders that take the payload
    from an installed engine, so that they have nothing to return when no
    engine is installed. *)

Record IndexEngine := mkIndexEngine {
  instId : N;
  collection : string;      (* collection id, in hexadecimal *)
  raddrs : list string
}.

Inductive Payload :=
| StreamBegin (vb vbuuid_ seqno_ status code : N)
| Sync (vb : N)
| Snapshot (vb : N)
| UpdateSeqno (vb seqno_ : N)
| SystemEvent (vb seqno_ : N)
| SeqnoAdvanced (vb seqno_ : N)
| OSOSnapshot (vb : N)
| StreamEnd (vb : N)
| KeyVersions (vb seqno_ : N) (uuids : list N).

Definition hexDigit (a : Ascii.ascii) : option N :=
  let n := Ascii.N_of_ascii a in
  if (48 <=? n)%N && (n <=? 57)%N then Some (n - 48)%N
  else if (97 <=? n)%N && (n <=? 102)%N then Some (n - 87)%N
  else if (65 <=? n)%N && (n <=? 70)%N then Some (n - 55)%N
  else None.

Fixpoint parseHex (acc : N) (s : string) : N :=
  match s with
  | EmptyString => acc
  | String a s =>
      match hexDigit a with
      | Some d => parseHex (16 * acc + d)%N s
      | None => 0%N
      end
  end.

(** The payload an installed engine builds, if there is an engine. *)
Definition fromEngine (engs : gmap N (gmap N IndexEngine)) (p : Payload)
    : option Payload :=
  if decide (size engs = 0) then None else Some p.

Definition addKeyVersion (v : N) (m : DcpEvent) (uuid : N)
    (acc : gmap string Payload) (raddr : string) : gmap string Payload :=
  match acc !! raddr with
  | Some (KeyVersions vb s uuids) =>
      <[raddr := KeyVersions vb s (uuids ++ [uuid])]> acc
  | _ => <[raddr := KeyVersions (VBucket m) (Seqno m) [uuid]]> acc
  end.

(** Endpoints are reachable ([true]) or not; sending to an unreachable
    endpoint fails. *)
Definition deployment : Collaborators IndexEngine bool Payload :=
  {| GetCollectionID := collection;
     getCidAsUint32 := parseHex 0;
     Endpoints := raddrs;
     TransformRoute := λ e v m acc buf _ _ _,
       (foldl (addKeyVersion v m (instId e)) acc (raddrs e), buf, false);
     Send := λ _ _ reachable _, negb reachable;
     mcStatus2StreamStatus := λ _ st,
       match st with SUCCESS => 0%N | NOT_SUCCESS _ => 1%N end;
     statusByte := λ st,
       match st with SUCCESS => 0%N | NOT_SUCCESS c => c end;
     makeStreamBeginData := λ v engs status code,
       fromEngine engs (StreamBegin (vbno v) (vbuuid v) (seqno v) status code);
     makeSyncData := λ v engs, fromEngine engs (Sync (vbno v));
     makeSnapshotData := λ v _ engs, fromEngine engs (Snapshot (vbno v));
     makeUpdateSeqnoData := λ v m engs,
       fromEngine engs (UpdateSeqno (vbno v) (Seqno m));
     makeSystemEventData := λ v m engs,
       fromEngine engs (SystemEvent (vbno v) (Seqno m));
     makeSeqnoAdvancedEvent := λ v m engs,
       fromEngine engs (SeqnoAdvanced (vbno v) (Seqno m));
     makeOSOSnapshotEvent := λ v _ engs, fromEngine engs (OSOSnapshot (vbno v));
     makeStreamEndData := λ v engs, fromEngine engs (StreamEnd (vbno v)) |}.

Definition event (op : CommandCode) (vb opq vbuuid_ seq cid : N) : DcpEvent :=
  {| Opcode := op; Status_ := SUCCESS; VBucket := vb; Opaque := opq;
     VBuuid := vbuuid_; Seqno := seq; CollectionID := cid;
     Key := []; Value := []; IsJSON := true |}.

(** A fresh worker, an engine on collection 1 and one on collection 2,
    both routed to ["A"]. *)
Definition worker0 : VbucketWorker IndexEngine bool Payload :=
  NewVbucketWorker 0 "cluster" "topic" "bucket" "keyspace" 7 16 9.

Definition engine1 : IndexEngine :=
  {| instId := 11; collection := "1"; raddrs := ["A"] |}.
Definition engine2 : IndexEngine :=
  {| instId := 12; collection := "2"; raddrs := ["A"] |}.
Definition engine3 : IndexEngine :=
  {| instId := 13; collection := "1"; raddrs := ["A"; "B"] |}.

Definition install12 : Msg IndexEngine bool :=
  FromSbch (AddEngines 7 {[ 11%N := engine1; 12%N := engine2 ]} {[ "A" := true ]}).

Definition begin (vb seq : N) : Msg IndexEngine bool :=
  FromDatach (vwCmdEvent (event DCP_STREAMREQ vb 7 100 seq 0)).

Definition mutation (vb seq cid : N) : Msg IndexEngine bool :=
  FromDatach (vwCmdEvent (event DCP_MUTATION vb 7 100 seq cid)).

(** The worker after a schedule, whatever became of it. *)
Definition after (msgs : list (Msg IndexEngine bool))
    : VbucketWorker IndexEngine bool Payload :=
  worker_of (run deployment msgs worker0).

(** A mutation on shard 3 for collection 1, at sequence number 5. *)
Definition mutation315 : DcpEvent := event DCP_MUTATION 3 7 100 5 1.

(** Shard 3 Open at sequence number 0, both engines installed. *)
Definition wOpen : VbucketWorker IndexEngine bool Payload :=
  after [install12; begin 3 0].

(** The state of shard 3 in [wOpen]. *)
Definition vb3 : Vbucket :=
  NewVbucket "cluster" "topic" "bucket" "keyspace" 7 3 100 0 9.

(** Shard 3 Open, both engines installed and then removed: the engine map
    is empty and the endpoint ["A"] is still in the table. *)
Definition wBare : VbucketWorker IndexEngine bool Payload :=
  after [install12; begin 3 0;
         FromSbch (DeleteEngines 7 [11%N; 12%N] [1%N; 2%N])].

(** Shards 1 and 2 Open, both engines installed and then removed: the
    endpoint ["A"] has seen both streams begin. *)
Definition wTwo : VbucketWorker IndexEngine bool Payload :=
  after [install12; begin 1 10; begin 2 20;
         FromSbch (DeleteEngines 7 [11%N; 12%N] [1%N; 2%N])].

(** [wOpen] after an install with a nil engines map. *)
Definition wReset : VbucketWorker IndexEngine bool Payload :=
  (handleCommand deployment (AddEngines 7 ∅ {[ "A" := true ]}) wOpen).1.1.

(** Both engines installed, then removed again. *)
Definition wRemoved : VbucketWorker IndexEngine bool Payload :=
  after [install12; FromSbch (DeleteEngines 7 [11%N; 12%N] [1%N; 2%N])].


(** A StreamBegin for shard 5 that the upstream refused. *)
Definition failedBegin : DcpEvent :=
  {| Opcode := DCP_STREAMREQ; Status_ := NOT_SUCCESS 1; VBucket := 5;
     Opaque := 7; VBuuid := 100; Seqno := 0; CollectionID := 0;
     Key := []; Value := []; IsJSON := false |}.

(** The schedule that leads to [wOpen], and one more mutation. *)
Definition schedule3 : list (Msg IndexEngine bool) :=
  [install12; begin 3 0; mutation 3 5 1].




(** A mutation for shard 4, which is not Open in [wOpen]. *)
Definition mutation4 : DcpEvent := event DCP_MUTATION 4 7 100 5 1.

(** Scenario 1 of the specification: a registered collection gets one
    payload on its sink, an unregistered one the update-sequence signal. *)
Example scenario1 :
  let w := after [install12; begin 3 0; mutation 3 5 1; mutation 3 6 9] in
  seqno <$> vbuckets w !! 3%N = Some 6%N ∧
  sendsTo "A" (trace w) =
    [(StreamBegin 3 100 0 0 0, false); (KeyVersions 3 5 [11%N], false);
     (UpdateSeqno 3 6, false)] ∧
  transforms (trace w) = [11%N] ∧
  updateSeqno (stats w) = 1%N.
Proof. vm_compute. done. Qed.

(** Scenario 2: after the collection-1 engine is removed, collection 1
    only produces the update-sequence signal. *)
Example scenario2 :
  let w := after [install12; begin 3 0; FromSbch (DeleteEngines 7 [11%N] [1%N]);
                  mutation 3 5 1; mutation 3 6 2] in
  sendsTo "A" (trace w) =
    [(StreamBegin 3 100 0 0 0, false); (UpdateSeqno 3 5, false);
     (KeyVersions 3 6 [12%N], false)] ∧
  transforms (trace w) = [12%N].
Proof. vm_compute. done. Qed.

(** Scenario 5: close with two open shards. *)
Example scenario5 :
  let o := run deployment
             [install12; begin 1 10; begin 2 20; FromSbch vwCmdClose;
              mutation 1 11 1] worker0 in
  (∃ w, o = Terminated w) ∧
  publications (trace (worker_of o)) ≡ₚ
    [StreamBegin 1 100 10 0 0; StreamBegin 2 100 20 0 0; StreamEnd 1; StreamEnd 2] ∧
  finch (worker_of o) = true ∧ IsClosed (stats (worker_of o)) = true.
Proof.
  intros o. split; [by eexists; vm_compute|]. split; [|by vm_compute].
  replace (publications (trace (worker_of o))) with
    [StreamBegin 1 100 10 0 0; StreamBegin 2 100 20 0 0; StreamEnd 2; StreamEnd 1]
    by (by vm_compute).
  do 2 apply perm_skip. apply perm_swap.
Qed.

(** [float64] at the edge of the significand: exact up to 2^53, then to the
    nearest representable number, ties to even; the largest uint64 becomes
    2^64. *)
Example float64_rounds :
  float64 (2 ^ 53) = (2 ^ 53)%N ∧
  float64 (2 ^ 53 + 1) = (2 ^ 53)%N ∧
  float64 (2 ^ 53 + 2) = (2 ^ 53 + 2)%N ∧
  float64 (2 ^ 53 + 3) = (2 ^ 53 + 4)%N ∧
  float64 (2 ^ 54 + 2) = (2 ^ 54)%N ∧
  float64 (2 ^ 54 + 6) = (2 ^ 54 + 8)%N ∧
  float64 (2 ^ 54 + 5) = (2 ^ 54 + 4)%N ∧
  float64 (2 ^ 64 - 1) = (2 ^ 64)%N.
Proof. vm_compute. by repeat split. Qed.

(** * Properties *)

Section Properties.

Context {Engine RouterEndpoint Data : Type}.
Variable X : Collaborators Engine RouterEndpoint Data.

Abbreviation Worker := (VbucketWorker Engine RouterEndpoint Data).
Abbreviation Log := (list (Effect Data)).

Implicit Types (w : Worker) (m : DcpEvent) (v : Vbucket) (d : Data)
  (r raddr : string) (ep : RouterEndpoint) (tr sfx : Log).

(** ** The observation log *)

Lemma sendsTo_app r tr1 tr2 :
  sendsTo r (tr1 ++ tr2) = sendsTo r tr1 ++ sendsTo r tr2.
Proof. apply omap_app. Qed.

Lemma publications_app (tr1 tr2 : Log) :
  publications (tr1 ++ tr2) = publications tr1 ++ publications tr2.
Proof. apply omap_app. Qed.

Lemma transforms_app (tr1 tr2 : Log) :
  transforms (tr1 ++ tr2) = transforms tr1 ++ transforms tr2.
Proof. apply omap_app. Qed.

Lemma isDelivery_impl (P Q : string → Data → Prop) sfx :
  (∀ r d, P r d → Q r d) →
  Forall (isDelivery P) sfx → Forall (isDelivery Q) sfx.
Proof.
  intros HPQ Hall. eapply Forall_impl; [exact Hall|].
  intros [] ?; simpl in *; try done; auto.
Qed.

Lemma delivery_publications (P : string → Data → Prop) sfx :
  Forall (isDelivery P) sfx → publications sfx = [].
Proof.
  induction 1 as [|e sfx He _ IH]; [done|].
  destruct e; simpl in *; done.
Qed.

Lemma delivery_transforms (P : string → Data → Prop) sfx :
  Forall (isDelivery P) sfx → transforms sfx = [].
Proof.
  induction 1 as [|e sfx He _ IH]; [done|].
  destruct e; simpl in *; done.
Qed.

Lemma delivery_sendsTo_outside (P : string → Data → Prop) sfx r :
  Forall (isDelivery P) sfx → (∀ d, ¬ P r d) → sendsTo r sfx = [].
Proof.
  intros Hall Hr. induction Hall as [|e sfx He _ IH]; [done|].
  destruct e; simpl in *; try done.
  case_decide; [|done]. subst. by destruct (Hr _ He).
Qed.

Lemma delivery_broadcast (P : string → Data → Prop) (Q : Data → Prop) sfx :
  (∀ r d, P r d → Q d) →
  Forall (isDelivery P) sfx → Forall (isBroadcastOf Q) sfx.
Proof.
  intros HPQ Hall. eapply Forall_impl; [exact Hall|].
  intros [] ?; simpl in *; try done; eauto.
Qed.

Ltac elem_solver :=
  rewrite ?elem_of_app, ?elem_of_cons, ?elem_of_nil;
  intuition (try congruence).

(** ** One send *)

Lemma sendTo_core r ep d w : core (sendTo X r ep d w) = core w.
Proof. unfold sendTo. by destruct (Send X _ _ _ _). Qed.

Lemma sendTo_trace r ep d w :
  trace (sendTo X r ep d w) =
  trace w ++ ESend r d (Send X (trace w) r ep d)
          :: (if Send X (trace w) r ep d then [EClose r] else []).
Proof.
  unfold sendTo. destruct (Send X _ _ _ _); simpl; [|done].
  by rewrite <- app_assoc.
Qed.

Lemma sendTo_endpoints r ep d w :
  endpoints (sendTo X r ep d w) =
  if Send X (trace w) r ep d then delete r (endpoints w) else endpoints w.
Proof. unfold sendTo. by destruct (Send X _ _ _ _). Qed.

(** What one round of a delivery loop does: nothing to the other
    addresses; to its own address, when the worker knows it, one send,
    followed by close and removal when the send failed. *)
Lemma deliverOne_spec w r0 d0 :
  core (deliverOne X w (r0, d0)) = core w ∧
  ∃ sfx0,
    trace (deliverOne X w (r0, d0)) = trace w ++ sfx0 ∧
    Forall (isDelivery (λ r d, r = r0 ∧ d = d0 ∧ is_Some (endpoints w !! r0))) sfx0 ∧
    (∀ r, r ≠ r0 →
       sendsTo r sfx0 = [] ∧ (EClose r ∉ sfx0) ∧
       endpoints (deliverOne X w (r0, d0)) !! r = endpoints w !! r) ∧
    match endpoints w !! r0 with
    | Some ep =>
        ∃ b, sendsTo r0 sfx0 = [(d0, b)] ∧ (EClose r0 ∈ sfx0 ↔ b = true) ∧
             endpoints (deliverOne X w (r0, d0)) !! r0 =
               (if b then None else Some ep)
    | None =>
        sendsTo r0 sfx0 = [] ∧ (EClose r0 ∉ sfx0) ∧
        endpoints (deliverOne X w (r0, d0)) !! r0 = None
    end.
Proof.
  unfold deliverOne; simpl.
  destruct (endpoints w !! r0) as [ep|] eqn:Hep.
  - split; [apply sendTo_core|].
    eexists. split; [apply sendTo_trace|].
    rewrite sendTo_endpoints.
    destruct (Send X (trace w) r0 ep d0) eqn:Hsend.
    + split; [constructor; [simpl; eauto|constructor; [done|constructor]]|].
      split.
      * intros r Hne. simpl. rewrite decide_False by done.
        split; [done|]. split; [|by rewrite lookup_delete_ne].
        elem_solver.
      * exists true. simpl. rewrite decide_True by done.
        split; [done|]. split; [|by rewrite lookup_delete_eq].
        elem_solver.
    + split; [constructor; [simpl; eauto|constructor]|].
      split.
      * intros r Hne. simpl. rewrite decide_False by done.
        split; [done|]. split; [|done].
        elem_solver.
      * exists false. simpl. rewrite decide_True by done.
        split; [done|]. split; [|done].
        elem_solver.
  - split; [done|]. exists []. rewrite app_nil_r.
    split; [done|]. split; [constructor|].
    split; [|by auto using not_elem_of_nil].
    intros r _. by auto using not_elem_of_nil.
Qed.

(** A delivery loop over distinct addresses: every address that is both
    asked for and known gets its payload once, whatever happens to the
    others; an address whose send failed is closed and gone afterwards;
    no other address is sent anything. *)
Lemma deliverLoop_spec (l : list (string * Data)) :
  NoDup l.*1 → ∀ w,
  core (foldl (deliverOne X) w l) = core w ∧
  ∃ sfx,
    trace (foldl (deliverOne X) w l) = trace w ++ sfx ∧
    Forall (isDelivery (λ r d, (r, d) ∈ l ∧ is_Some (endpoints w !! r))) sfx ∧
    (∀ r d ep, (r, d) ∈ l → endpoints w !! r = Some ep →
       ∃ b, sendsTo r sfx = [(d, b)] ∧ (EClose r ∈ sfx ↔ b = true) ∧
            endpoints (foldl (deliverOne X) w l) !! r =
              (if b then None else Some ep)) ∧
    (∀ r, r ∉ l.*1 ∨ endpoints w !! r = None →
       sendsTo r sfx = [] ∧ (EClose r ∉ sfx) ∧
       endpoints (foldl (deliverOne X) w l) !! r = endpoints w !! r).
Proof.
  induction l as [|[r0 d0] l IH]; intros Hnd w; simpl.
  { split; [done|]. exists []. rewrite app_nil_r.
    repeat split; try done; try apply not_elem_of_nil.
    intros ??? Hin. by apply elem_of_nil in Hin. }
  apply NoDup_cons in Hnd as [Hr0 Hnd].
  destruct (deliverOne_spec w r0 d0) as (Hc0 & sfx0 & Ht0 & Hd0 & Ho0 & Hs0).
  destruct (IH Hnd (deliverOne X w (r0, d0)))
    as (Hc1 & sfx1 & Ht1 & Hd1 & Hin1 & Hout1).
  split; [by rewrite Hc1|].
  exists (sfx0 ++ sfx1). split; [by rewrite Ht1, Ht0, app_assoc|].
  assert (Hsub : ∀ r, is_Some (endpoints (deliverOne X w (r0, d0)) !! r) →
                      is_Some (endpoints w !! r)).
  { intros r. destruct (decide (r = r0)) as [->|Hne].
    - destruct (endpoints w !! r0); [eauto|].
      destruct Hs0 as (_ & _ & ->). by intros [? ?].
    - by destruct (Ho0 r Hne) as (_ & _ & ->). }
  split.
  { apply Forall_app. split.
    - eapply isDelivery_impl; [|exact Hd0].
      intros r d (-> & -> & ?). split; [left|done].
    - eapply isDelivery_impl; [|exact Hd1].
      intros r d [? ?]. split; [by right|by apply Hsub]. }
  split.
  - intros r d ep Hin Hep. apply elem_of_cons in Hin as [Heq|Hin].
    + injection Heq as -> ->. rewrite Hep in Hs0.
      destruct Hs0 as (b & Hsend & Hclose & Hend). exists b.
      destruct (Hout1 r0 (or_introl Hr0)) as (Hs1 & Hc1' & He1).
      rewrite sendsTo_app, Hs1, app_nil_r, He1, elem_of_app.
      split; [done|]. split; [|done]. tauto.
    + assert (r ≠ r0) as Hne.
      { intros ->. apply Hr0. apply list_elem_of_fmap. by exists (r0, d). }
      destruct (Ho0 r Hne) as (Hs & Hc & He).
      destruct (Hin1 r d ep Hin) as (b & Hsend & Hclose & Hend);
        [by rewrite He|].
      exists b. rewrite sendsTo_app, Hs, elem_of_app. simpl.
      split; [done|]. split; [|done]. tauto.
  - intros r Hr.
    assert (sendsTo r sfx0 = [] ∧ (EClose r ∉ sfx0) ∧
            endpoints (deliverOne X w (r0, d0)) !! r = endpoints w !! r)
      as (Hs & Hc & He).
    { destruct (decide (r = r0)) as [->|Hne]; [|by apply Ho0].
      destruct Hr as [Hr|Hr]; [by destruct Hr; left|].
      rewrite Hr in Hs0 |- *. done. }
    destruct (Hout1 r) as (Hs1 & Hc1' & He1).
    { destruct Hr as [Hr|Hr]; [left|right; by rewrite He].
      intros ?. apply Hr. by right. }
    rewrite sendsTo_app, Hs, Hs1, He1, He, elem_of_app.
    repeat split; try done. tauto.
Qed.

(** ** Broadcast *)

(** The range loop of [broadcast2Endpoints] finds every endpoint it
    visits still in the table: only the visited address is ever deleted. *)
Lemma sendLoop_as_deliver d (l : list (string * RouterEndpoint)) :
  NoDup l.*1 → ∀ w,
  (∀ r ep, (r, ep) ∈ l → endpoints w !! r = Some ep) →
  foldl (λ w re, sendTo X re.1 re.2 d w) w l =
  foldl (deliverOne X) w ((λ re, (re.1, d)) <$> l).
Proof.
  induction l as [|[r0 ep0] l IH]; intros Hnd w Hl; [done|]. simpl.
  apply NoDup_cons in Hnd as [Hr0 Hnd].
  assert (deliverOne X w (r0, d) = sendTo X r0 ep0 d w) as ->.
  { unfold deliverOne. simpl. by rewrite (Hl r0 ep0) by left. }
  apply IH; [done|]. intros r ep Hin.
  assert (r ≠ r0) as Hne.
  { intros ->. apply Hr0. apply list_elem_of_fmap. by exists (r0, ep). }
  rewrite sendTo_endpoints.
  destruct (Send X _ _ _ _); [rewrite lookup_delete_ne by done|];
    apply Hl; by right.
Qed.

Lemma broadcast_spec d w :
  core (broadcast2Endpoints X d w) = core w ∧
  ∃ sfx,
    trace (broadcast2Endpoints X d w) = trace w ++ EPublish d :: sfx ∧
    Forall (isDelivery (λ r d', d' = d ∧ is_Some (endpoints w !! r))) sfx ∧
    (∀ r ep, endpoints w !! r = Some ep →
       ∃ b, sendsTo r sfx = [(d, b)] ∧ (EClose r ∈ sfx ↔ b = true) ∧
            endpoints (broadcast2Endpoints X d w) !! r =
              (if b then None else Some ep)) ∧
    (∀ r, endpoints w !! r = None →
       sendsTo r sfx = [] ∧ (EClose r ∉ sfx) ∧
       endpoints (broadcast2Endpoints X d w) !! r = None).
Proof.
  unfold broadcast2Endpoints.
  rewrite sendLoop_as_deliver;
    [|apply NoDup_fst_map_to_list|by intros r ep ?%elem_of_map_to_list].
  set (l := (λ re : string * RouterEndpoint, (re.1, d)) <$> map_to_list (endpoints w)).
  assert (Hfst : l.*1 = (map_to_list (endpoints w)).*1).
  { unfold l. rewrite <- list_fmap_compose. by apply list_fmap_ext. }
  assert (Hl : ∀ r d', (r, d') ∈ l ↔ d' = d ∧ is_Some (endpoints w !! r)).
  { intros r d'. unfold l. rewrite list_elem_of_fmap. split.
    - intros ([r' ep] & [= -> ->] & Hin%elem_of_map_to_list). eauto.
    - intros [-> [ep Hep]]. exists (r, ep). by rewrite elem_of_map_to_list. }
  destruct (deliverLoop_spec l) with (w := emit (EPublish d) w)
    as (Hc & sfx & Ht & Hd & Hin & Hout).
  { rewrite Hfst. apply NoDup_fst_map_to_list. }
  split; [by rewrite Hc|]. exists sfx.
  split; [by rewrite Ht; simpl; rewrite <- app_assoc|].
  split; [eapply isDelivery_impl; [|exact Hd]; intros r d' [?%Hl ?]; tauto|].
  split.
  - intros r ep Hep. apply (Hin r d ep); [|done]. apply Hl. eauto.
  - intros r Hr. destruct (Hout r (or_intror Hr)) as (? & ? & Hend).
    simpl in Hend. by rewrite Hend.
Qed.

Lemma broadcast_core d w : core (broadcast2Endpoints X d w) = core w.
Proof. apply broadcast_spec. Qed.

Lemma publish_core (o : option Data) w : core (publish X o w) = core w.
Proof. destruct o; [apply broadcast_core|done]. Qed.

(** ** The transform loop and the per-mutation delivery *)

Lemma transformLoop_spec v m n (l : list (N * Engine)) :
  ∀ (acc : gmap string Data) w,
  vbuckets (foldl (transformOne X v m n) (acc, w) l).2 = vbuckets w ∧
  engines (foldl (transformOne X v m n) (acc, w) l).2 = engines w ∧
  endpoints (foldl (transformOne X v m n) (acc, w) l).2 = endpoints w ∧
  stats (foldl (transformOne X v m n) (acc, w) l).2 = stats w ∧
  finch (foldl (transformOne X v m n) (acc, w) l).2 = finch w ∧
  ∃ sfx,
    trace (foldl (transformOne X v m n) (acc, w) l).2 = trace w ++ sfx ∧
    Forall isTransform sfx ∧ transforms sfx = l.*1.
Proof.
  induction l as [|[u e] l IH]; intros acc w; simpl.
  { repeat split; try done. exists []. by rewrite app_nil_r. }
  destruct (TransformRoute X e (vbuuid v) m acc (encodeBuf w) (docval m) n
              (opaque2 w)) as [[acc' newBuf] err] eqn:Htr.
  match goal with
  | |- context [foldl _ (?a, ?w1) l] =>
      destruct (IH a w1) as (Hv & He & Hp & Hs & Hf & sfx & Ht & Hall & Htrs);
      assert (vbuckets w1 = vbuckets w ∧ engines w1 = engines w ∧
              endpoints w1 = endpoints w ∧ stats w1 = stats w ∧
              finch w1 = finch w ∧ trace w1 = trace w ++ [ETransform u err])
        as (Hv1 & He1 & Hp1 & Hs1 & Hf1 & Ht1)
        by (simpl; by destruct (_ <? _)%N)
  end.
  rewrite Hv, He, Hp, Hs, Hf, Ht, Ht1, <- app_assoc.
  repeat split; try done.
  exists (ETransform u err :: sfx). split; [done|].
  split; [by constructor|]. simpl. by rewrite Htrs.
Qed.

Lemma transform_sendsTo sfx r :
  Forall isTransform sfx →
  sendsTo r sfx = [] ∧ publications sfx = [] ∧ EClose r ∉ sfx.
Proof.
  induction 1 as [|e sfx He _ (IH1 & IH2 & IH3)].
  { repeat split; try done. apply not_elem_of_nil. }
  destruct e; try done. simpl. repeat split; try done.
  rewrite elem_of_cons. intros [?|?]; [done|tauto].
Qed.

(** The per-mutation delivery: every address the engines produced a
    payload for, and that the worker knows, is sent that payload once. *)
Lemma deliver_spec (dataForEndpoints : gmap string Data) w :
  core (deliver X dataForEndpoints w) = core w ∧
  ∃ sfx,
    trace (deliver X dataForEndpoints w) = trace w ++ sfx ∧
    Forall (isDelivery (λ r d, dataForEndpoints !! r = Some d ∧
                               is_Some (endpoints w !! r))) sfx ∧
    (∀ r d ep, dataForEndpoints !! r = Some d → endpoints w !! r = Some ep →
       ∃ b, sendsTo r sfx = [(d, b)] ∧ (EClose r ∈ sfx ↔ b = true) ∧
            endpoints (deliver X dataForEndpoints w) !! r =
              (if b then None else Some ep)) ∧
    (∀ r, dataForEndpoints !! r = None ∨ endpoints w !! r = None →
       sendsTo r sfx = [] ∧ (EClose r ∉ sfx) ∧
       endpoints (deliver X dataForEndpoints w) !! r = endpoints w !! r).
Proof.
  unfold deliver.
  destruct (deliverLoop_spec (map_to_list dataForEndpoints)) with (w := w)
    as (Hc & sfx & Ht & Hd & Hin & Hout); [apply NoDup_fst_map_to_list|].
  split; [done|]. exists sfx. split; [done|].
  split; [eapply isDelivery_impl; [|exact Hd];
          by intros r d [?%elem_of_map_to_list ?]|].
  split.
  - intros r d ep Hr. apply Hin. by apply elem_of_map_to_list.
  - intros r [Hr|Hr]; apply Hout; [left|by right].
    intros ([r' d] & -> & Hin')%list_elem_of_fmap.
    apply elem_of_map_to_list in Hin'. simpl in Hr. congruence.
Qed.

(** ** The endpoint table *)

Lemma foldl_bind {A B C} (f : A → C → A) (g : B → list C) (l : list B) :
  ∀ a, foldl f a (l ≫= g) = foldl (λ a x, foldl f a (g x)) a l.
Proof.
  induction l as [|x l IH]; intros a; [done|].
  by rewrite bind_cons, foldl_app, IH.
Qed.

Lemma foldl_pointwise {A B} (f g : A → B → A) (l : list B) :
  (∀ a x, f a x = g a x) → ∀ a, foldl f a l = foldl g a l.
Proof.
  intros Hfg. induction l as [|x l IH]; intros a; [done|].
  simpl. by rewrite Hfg, IH.
Qed.

Lemma updateEndpoints_flat w opq (eps : gmap string RouterEndpoint) :
  updateEndpoints X w opq eps =
  foldl (λ endpoints raddr,
           match eps !! raddr with
           | None => endpoints
           | Some ep => <[raddr := ep]> endpoints
           end) ∅ (allRaddrs X (engines w)).
Proof.
  unfold updateEndpoints, allRaddrs. rewrite foldl_bind.
  apply foldl_pointwise. intros acc ce. by rewrite foldl_bind.
Qed.

Lemma pickEndpoints_lookup (eps : gmap string RouterEndpoint)
    (l : list string) r :
  ∀ acc : gmap string RouterEndpoint,
  foldl (λ endpoints raddr,
           match eps !! raddr with
           | None => endpoints
           | Some ep => <[raddr := ep]> endpoints
           end) acc l !! r =
  match (if decide (r ∈ l) then eps !! r else None) with
  | Some ep => Some ep
  | None => acc !! r
  end.
Proof.
  induction l as [|r0 l IH]; intros acc; simpl.
  { done. }
  rewrite IH. destruct (decide (r = r0)) as [->|Hne].
  - rewrite (decide_True (P := r0 ∈ r0 :: l)) by left.
    destruct (decide (r0 ∈ l)); destruct (eps !! r0) eqn:Heps; try done.
    by rewrite lookup_insert_eq.
  - assert (Hiff : r ∈ r0 :: l ↔ r ∈ l) by (rewrite elem_of_cons; tauto).
    rewrite (decide_ext _ _ _ _ Hiff).
    destruct (decide (r ∈ l)); destruct (eps !! r); try done;
      destruct (eps !! r0); try done; by rewrite lookup_insert_ne.
Qed.

Lemma elem_of_allRaddrs (engs : gmap N (gmap N Engine)) r :
  r ∈ allRaddrs X engs ↔ referenced X engs r.
Proof.
  unfold allRaddrs, referenced. rewrite list_elem_of_bind. split.
  - intros ([cid inner] & Hr & Hin%elem_of_map_to_list).
    apply list_elem_of_bind in Hr as ([uuid e] & Hr & Hin'%elem_of_map_to_list).
    by exists cid, inner, uuid, e.
  - intros (cid & inner & uuid & e & Hc & Hu & Hr).
    exists (cid, inner). split; [|by apply elem_of_map_to_list].
    apply list_elem_of_bind. exists (uuid, e).
    split; [done|by apply elem_of_map_to_list].
Qed.

(** The table [updateEndpoints] returns: the candidate endpoints whose
    address an installed engine references, and nothing else. *)
Lemma updateEndpoints_lookup w opq (eps : gmap string RouterEndpoint) r ep :
  updateEndpoints X w opq eps !! r = Some ep ↔
  eps !! r = Some ep ∧ referenced X (engines w) r.
Proof.
  rewrite updateEndpoints_flat, pickEndpoints_lookup, lookup_empty.
  rewrite <- elem_of_allRaddrs.
  destruct (decide (r ∈ allRaddrs X (engines w))).
  - destruct (eps !! r); split; [intros [= ->]| |done|]; tauto.
  - split; [done|tauto].
Qed.

(** ** The engine map *)

Lemma lookupEngine_addEngine (engs : gmap N (gmap N Engine)) u e cid uuid :
  lookupEngine (addEngine X engs (u, e)) cid uuid =
  if decide (cid = getCidAsUint32 X (GetCollectionID X e) ∧ uuid = u)
  then Some e else lookupEngine engs cid uuid.
Proof.
  unfold lookupEngine, addEngine. simpl.
  set (c := getCidAsUint32 X (GetCollectionID X e)).
  destruct (decide (cid = c)) as [->|Hc].
  - rewrite lookup_insert_eq. simpl.
    destruct (decide (uuid = u)) as [->|Hu].
    + rewrite lookup_insert_eq. by rewrite decide_True.
    + rewrite lookup_insert_ne by done. rewrite decide_False by tauto.
      by destruct (engs !! c).
  - rewrite lookup_insert_ne by done. by rewrite decide_False by tauto.
Qed.

Lemma lookupEngine_addEngines (l : list (N * Engine)) cid uuid :
  NoDup l.*1 → ∀ engs : gmap N (gmap N Engine),
  lookupEngine (foldl (addEngine X) engs l) cid uuid =
  match (list_to_map l : gmap N Engine) !! uuid with
  | Some e =>
      if decide (getCidAsUint32 X (GetCollectionID X e) = cid)
      then Some e else lookupEngine engs cid uuid
  | None => lookupEngine engs cid uuid
  end.
Proof.
  induction l as [|[u e] l IH]; intros Hnd engs; [done|].
  apply NoDup_cons in Hnd as [Hu Hnd]. simpl. rewrite (IH Hnd).
  rewrite lookupEngine_addEngine.
  destruct (decide (uuid = u)) as [->|Hne].
  - rewrite lookup_insert_eq.
    rewrite (not_elem_of_list_to_map_1 l u Hu).
    destruct (decide (getCidAsUint32 X (GetCollectionID X e) = cid)) as [<-|?].
    + by rewrite decide_True.
    + by rewrite decide_False by (intros [? _]; congruence).
  - rewrite lookup_insert_ne by done.
    rewrite (decide_False (P := _ ∧ uuid = u)) by tauto. done.
Qed.

(** ** The sequence numbers returned for reconciliation *)

Lemma cseqnos_fold (l : list (N * Vbucket)) vb :
  NoDup l.*1 → (∀ k v, (k, v) ∈ l → vbno v = k) →
  ∀ acc : gmap N N,
  foldl (λ acc kv, <[vbno kv.2 := seqno kv.2]> acc) acc l !! vb =
  match (list_to_map l : gmap N Vbucket) !! vb with
  | Some v => Some (seqno v)
  | None => acc !! vb
  end.
Proof.
  induction l as [|[k v] l IH]; intros Hnd Hkey acc; [done|].
  apply NoDup_cons in Hnd as [Hk Hnd]. simpl.
  rewrite IH; [|done|by intros ???; apply Hkey; right].
  rewrite (Hkey k v) by left.
  destruct (decide (vb = k)) as [->|Hne].
  - by rewrite lookup_insert_eq, (not_elem_of_list_to_map_1 l k Hk),
      lookup_insert_eq.
  - by rewrite !lookup_insert_ne by done.
Qed.

Lemma cseqnos_lookup w vb :
  keyed w → cseqnos w !! vb = seqno <$> vbuckets w !! vb.
Proof.
  intros Hkey. unfold cseqnos.
  rewrite cseqnos_fold;
    [|apply NoDup_fst_map_to_list
     |by intros k v ?%elem_of_map_to_list; apply Hkey].
  rewrite list_to_map_to_list, lookup_empty. by destruct (vbuckets w !! vb).
Qed.

(** ** What a delivery leaves alone *)

Lemma core_fields w w' :
  core w' = core w →
  vbuckets w' = vbuckets w ∧ engines w' = engines w ∧ stats w' = stats w ∧
  finch w' = finch w ∧ encodeBuf w' = encodeBuf w ∧ opaque2 w' = opaque2 w.
Proof. unfold core. intros [= ]. by repeat split. Qed.

Lemma publish_vbuckets (o : option Data) w :
  vbuckets (publish X o w) = vbuckets w.
Proof. apply core_fields, publish_core. Qed.

Lemma publish_engines (o : option Data) w :
  engines (publish X o w) = engines w.
Proof. apply core_fields, publish_core. Qed.

Lemma publish_stats (o : option Data) w :
  stats (publish X o w) = stats w.
Proof. apply core_fields, publish_core. Qed.

Lemma publish_finch (o : option Data) w :
  finch (publish X o w) = finch w.
Proof. apply core_fields, publish_core. Qed.

Lemma broadcast_vbuckets d w :
  vbuckets (broadcast2Endpoints X d w) = vbuckets w.
Proof. apply core_fields, broadcast_core. Qed.

Lemma broadcast_engines d w :
  engines (broadcast2Endpoints X d w) = engines w.
Proof. apply core_fields, broadcast_core. Qed.

Lemma broadcast_stats d w :
  stats (broadcast2Endpoints X d w) = stats w.
Proof. apply core_fields, broadcast_core. Qed.

Lemma broadcast_finch d w :
  finch (broadcast2Endpoints X d w) = finch w.
Proof. apply core_fields, broadcast_core. Qed.

(** [processMutation] is the transform loop followed by the delivery of
    what the engines produced; the loop calls every engine of the
    collection and touches neither the shards nor the endpoint table. *)
Lemma processMutation_spec v m (engs : gmap N Engine) w :
  ∃ sfx1,
    processMutation X v m engs w =
      deliver X (transformAll X v m engs w).1 (transformAll X v m engs w).2 ∧
    vbuckets (transformAll X v m engs w).2 = vbuckets w ∧
    engines (transformAll X v m engs w).2 = engines w ∧
    endpoints (transformAll X v m engs w).2 = endpoints w ∧
    stats (transformAll X v m engs w).2 = stats w ∧
    finch (transformAll X v m engs w).2 = finch w ∧
    trace (transformAll X v m engs w).2 = trace w ++ sfx1 ∧
    Forall isTransform sfx1 ∧
    transforms sfx1 = (map_to_list engs).*1.
Proof.
  unfold processMutation, transformAll.
  destruct (transformLoop_spec v m (size engs) (map_to_list engs) ∅ w)
    as (Hv & He & Hp & Hs & Hf & sfx & Ht & Hall & Htr).
  destruct (foldl _ _ _) as [dfe w1]. simpl in *.
  by exists sfx.
Qed.

Lemma processMutation_fields v m (engs : gmap N Engine) w :
  vbuckets (processMutation X v m engs w) = vbuckets w ∧
  engines (processMutation X v m engs w) = engines w ∧
  stats (processMutation X v m engs w) = stats w ∧
  finch (processMutation X v m engs w) = finch w.
Proof.
  destruct (processMutation_spec v m engs w)
    as (sfx1 & -> & Hv & He & Hp & Hs & Hf & _).
  destruct (deliver_spec (transformAll X v m engs w).1
              (transformAll X v m engs w).2) as [Hc _].
  apply core_fields in Hc as (-> & -> & -> & -> & _). done.
Qed.

Lemma processMutation_vbuckets v m (engs : gmap N Engine) w :
  vbuckets (processMutation X v m engs w) = vbuckets w.
Proof. apply processMutation_fields. Qed.

Lemma processMutation_engines v m (engs : gmap N Engine) w :
  engines (processMutation X v m engs w) = engines w.
Proof. apply processMutation_fields. Qed.

Lemma processMutation_stats v m (engs : gmap N Engine) w :
  stats (processMutation X v m engs w) = stats w.
Proof. apply processMutation_fields. Qed.

Lemma processMutation_finch v m (engs : gmap N Engine) w :
  finch (processMutation X v m engs w) = finch w.
Proof. apply processMutation_fields. Qed.

(** The engine map is only ever changed by commands. *)
Lemma handleEvent_engines m w : engines (handleEvent X m w).1 = engines w.
Proof.
  unfold handleEvent.
  destruct (Opcode m); destruct (vbuckets w !! VBucket m) as [v|]; simpl;
    try destruct (Status_ m); simpl;
    repeat case_match; simpl;
    by rewrite ?publish_engines, ?broadcast_engines,
      ?processMutation_engines.
Qed.

(** ** Endpoints the worker does not know are not sent anything *)












Lemma handleCommand_endpoints (cmd : Command Engine RouterEndpoint) w :
  installsEndpoints (FromSbch cmd) = false →
  endpoints (handleCommand X cmd w).1.1 = endpoints w ∧
  trace (handleCommand X cmd w).1.1 = trace w.
Proof.
  destruct cmd as [|opq engs [eps|]|opq ks cs| | |]; try done; intros _; simpl.
  - by destruct engs.
  - by destruct (delEngines _ _ _ _) as [[?|] ?].
Qed.



(** ** Who changes the engine map *)

Lemma runEvent_engines m w : engines (runEvent X m w).1 = engines w.
Proof.
  unfold runEvent.
  pose proof (handleEvent_engines m (set_stats add_outgoingMut w)) as He.
  destruct (handleEvent X m _) as [w1 [v|]]; simpl in *; [|done].
  by repeat case_decide.
Qed.

Lemma syncLoop_engines (l : list (N * Vbucket)) :
  ∀ w, engines (foldl (syncOne X) w l) = engines w.
Proof.
  induction l as [|kv l IH]; intros w; simpl; [done|]. rewrite IH.
  unfold syncOne. destruct (makeSyncData X _ _); [|done].
  by rewrite broadcast_engines.
Qed.

Lemma streamEndLoop_core (l : list (N * Vbucket)) :
  ∀ w,
  core (foldl (λ w kv, publish X (makeStreamEndData X kv.2 (engines w)) w) w l)
  = core w.
Proof.
  induction l as [|kv l IH]; intros w; simpl; [done|].
  by rewrite IH, publish_core.
Qed.

Lemma shutdown_engines w : engines (shutdown X w) = engines w.
Proof.
  unfold shutdown. simpl.
  apply core_fields, streamEndLoop_core.
Qed.

Lemma delEngines_empty i (ks cs : list N) :
  (delEngines (∅ : gmap N (gmap N Engine)) i ks cs).2 = ∅.
Proof.
  revert i. induction ks as [|k ks IH]; intros i; simpl; [done|].
  destruct (cs !! i); [|done]. unfold delEngine. rewrite lookup_empty.
  apply IH.
Qed.

Lemma step_engines (msg : Msg Engine RouterEndpoint) w :
  changesEngines msg = false →
  engines (worker_of (step X msg w)) = engines w.
Proof.
  destruct msg as [cmd|[m|]]; [destruct cmd|..]; try done; intros _; simpl.
  - apply (shutdown_engines w).
  - pose proof (runEvent_engines m w).
    by destruct (runEvent X m w) as [w1 []].
  - apply syncLoop_engines.
Qed.

(** ** Shutdown *)

Lemma streamEndLoop_spec (l : list (N * Vbucket)) :
  ∀ w,
  ∃ sfx,
    trace (foldl (λ w kv, publish X (makeStreamEndData X kv.2 (engines w)) w)
             w l) = trace w ++ sfx ∧
    publications sfx = omap (λ kv, makeStreamEndData X kv.2 (engines w)) l ∧
    Forall (isBroadcastOf
              (λ d, ∃ kv, kv ∈ l ∧
                          makeStreamEndData X kv.2 (engines w) = Some d)) sfx.
Proof.
  induction l as [|kv l IH]; intros w; simpl.
  { exists []. by rewrite app_nil_r. }
  destruct (IH (publish X (makeStreamEndData X kv.2 (engines w)) w))
    as (sfx & Ht & Hp & Hall).
  rewrite publish_engines in Hp, Hall.
  assert (Hall' : Forall (isBroadcastOf
            (λ d, ∃ kv', kv' ∈ kv :: l ∧
                         makeStreamEndData X kv'.2 (engines w) = Some d)) sfx).
  { eapply Forall_impl; [exact Hall|].
    intros [] ?; simpl in *; try done;
      match goal with H : ∃ _, _ |- _ => destruct H as (kv' & ? & ?) end;
      exists kv'; split; [by right|done|by right|done]. }
  destruct (makeStreamEndData X kv.2 (engines w)) as [d|] eqn:Hd; simpl in *.
  - destruct (broadcast_spec d w) as (_ & sfx0 & Ht0 & Hd0 & _).
    exists (EPublish d :: sfx0 ++ sfx).
    split; [by rewrite Ht, Ht0, <- app_assoc|].
    split.
    + simpl. rewrite publications_app, Hp.
      by erewrite delivery_publications.
    + constructor; [exists kv; split; [left|done]|].
      apply Forall_app. split; [|done].
      eapply delivery_broadcast; [|exact Hd0].
      intros r d' [-> _]. exists kv. split; [left|done].
  - by exists sfx.
Qed.

(** ** The shard state an event hands back to the loop *)

Lemma handleEvent_returns_open m w v :
  isDataEvent (Opcode m) = true → vbuckets w !! VBucket m = Some v →
  ∃ v', (handleEvent X m w).2 = Some v' ∧ opaque v' = opaque v ∧
        vbuuid v' = vbuuid v.
Proof.
  intros Hop Hv. unfold handleEvent. rewrite Hv.
  destruct (Opcode m); try done; simpl; repeat case_match; simpl; eauto.
Qed.

Lemma handleEvent_returned m w v' :
  (handleEvent X m w).2 = Some v' →
  opaque v' = Opaque m ∨
  ∃ v, vbuckets w !! VBucket m = Some v ∧ opaque v' = opaque v.
Proof.
  unfold handleEvent.
  destruct (Opcode m); destruct (vbuckets w !! VBucket m) as [v|]; simpl;
    try destruct (Status_ m); simpl;
    repeat case_match; simpl; intros [= <-]; eauto.
Qed.

(** ** Shard states stay under their own shard id *)

Lemma keyed_insert w vb v :
  keyed w → vbno v = vb → keyed (set_vbuckets (<[vb := v]>) w).
Proof.
  intros Hk Hv k v0. simpl. destruct (decide (k = vb)) as [->|Hne].
  - rewrite lookup_insert_eq. by intros [= <-].
  - rewrite lookup_insert_ne by done. apply Hk.
Qed.

Lemma keyed_same w w' : vbuckets w' = vbuckets w → keyed w → keyed w'.
Proof. unfold keyed. by intros ->. Qed.

Lemma keyed_delete w vb : keyed w → keyed (set_vbuckets (delete vb) w).
Proof.
  intros Hk k v. simpl. intros Hl. apply Hk.
  by apply lookup_delete_Some in Hl as [_ ?].
Qed.

Lemma keyed_new i (c t b k : string) (o s o2 : N) :
  keyed (NewVbucketWorker (Engine := Engine) (RouterEndpoint := RouterEndpoint)
           (Data := Data) i c t b k o s o2).
Proof. intros ? ?. simpl. by rewrite lookup_empty. Qed.

Lemma handleEvent_vbuckets m w :
  vbuckets (handleEvent X m w).1 = vbuckets w ∨
  vbuckets (handleEvent X m w).1 = delete (VBucket m) (vbuckets w) ∨
  ∃ v', vbuckets (handleEvent X m w).1 = <[VBucket m := v']> (vbuckets w) ∧
        (vbno v' = VBucket m ∨
         ∃ v, vbuckets w !! VBucket m = Some v ∧ vbno v' = vbno v).
Proof.
  unfold handleEvent.
  destruct (Opcode m); destruct (vbuckets w !! VBucket m) as [v|] eqn:Hv;
    simpl; try destruct (Status_ m); simpl; repeat case_match; simpl;
    rewrite ?publish_vbuckets, ?broadcast_vbuckets, ?processMutation_vbuckets;
    simpl; eauto 10.
Qed.

Lemma keyed_handleEvent m w : keyed w → keyed (handleEvent X m w).1.
Proof.
  intros Hk k v0.
  destruct (handleEvent_vbuckets m w) as [->|[->|(v' & -> & Hv')]].
  - apply Hk.
  - intros Hl. apply Hk. by apply lookup_delete_Some in Hl as [_ ?].
  - destruct (decide (k = VBucket m)) as [->|Hne].
    + rewrite lookup_insert_eq. intros [= <-].
      destruct Hv' as [?|(v & Hv & ->)]; [done|by apply Hk].
    + rewrite lookup_insert_ne by done. apply Hk.
Qed.

Lemma keyed_runEvent m w : keyed w → keyed (runEvent X m w).1.
Proof.
  intros Hk. unfold runEvent.
  pose proof (keyed_handleEvent m (set_stats add_outgoingMut w) Hk) as Hk'.
  destruct (handleEvent X m _) as [w1 [v|]]; simpl in *; [|done].
  repeat case_decide; simpl; try done. by apply keyed_delete.
Qed.

Lemma keyed_syncLoop (l : list (N * Vbucket)) :
  (∀ kv, kv ∈ l → vbno kv.2 = kv.1) →
  ∀ w, keyed w → keyed (foldl (syncOne X) w l).
Proof.
  induction l as [|kv l IH]; intros Hl w Hk; simpl; [done|].
  apply IH; [by intros ??; apply Hl; right|].
  unfold syncOne. destruct (makeSyncData X _ _); [|done].
  eapply keyed_same; [apply broadcast_vbuckets|].
  apply keyed_insert; [done|]. simpl. apply Hl. left.
Qed.

Lemma keyed_shutdown w : keyed w → keyed (shutdown X w).
Proof.
  apply keyed_same. unfold shutdown. simpl.
  apply core_fields, streamEndLoop_core.
Qed.

Lemma keyed_handleCommand (cmd : Command Engine RouterEndpoint) w :
  keyed w → keyed (handleCommand X cmd w).1.1.
Proof.
  apply keyed_same. destruct cmd as [|opq engs eps|opq ks cs| | |]; simpl;
    try done.
  - by destruct engs, eps.
  - by destruct (delEngines _ _ _ _) as [[?|] ?].
Qed.

(** Every worker the loop can reach from a fresh one keeps each shard
    state under its own shard id. *)
Lemma keyed_step (msg : Msg Engine RouterEndpoint) w :
  keyed w → keyed (worker_of (step X msg w)).
Proof.
  intros Hk. destruct msg as [cmd|[m|]]; simpl.
  - pose proof (keyed_handleCommand cmd w Hk) as Hk'.
    destruct (handleCommand X cmd w) as [[w1 resp] []]; simpl in *;
      try done; by apply keyed_shutdown.
  - pose proof (keyed_runEvent m w Hk) as Hk'.
    by destruct (runEvent X m w) as [w1 []].
  - apply keyed_syncLoop; [|done].
    intros [k v] Hin%elem_of_map_to_list. by apply Hk.
Qed.

Lemma keyed_run (msgs : list (Msg Engine RouterEndpoint)) :
  ∀ w, keyed w → keyed (worker_of (run X msgs w)).
Proof.
  induction msgs as [|msg msgs IH]; intros w Hk; simpl; [done|].
  pose proof (keyed_step msg w Hk) as Hk'.
  destruct (step X msg w) as [w1|w1|w1]; simpl in *; try done.
  by apply IH.
Qed.

(** * The claims *)

(** C5.  A successful StreamBegin for a shard that is already Open is
    rejected: [handleEvent] returns the existing shard state and leaves the
    whole worker as it was, so no shard state is created, the existing one
    keeps its epoch id and sequence number, and nothing is sent.  The same
    holds for the round of the loop that handles the event: the shard table
    is the same after it and the log shows no publication and no send. *)
Theorem duplicate_stream_begin_rejected m w v :
  Opcode m = DCP_STREAMREQ → Status_ m = SUCCESS →
  vbuckets w !! VBucket m = Some v →
  handleEvent X m w = (w, Some v) ∧
  vbuckets (runEvent X m w).1 = vbuckets w ∧
  publications (trace (runEvent X m w).1) = publications (trace w) ∧
  ∀ r, sendsTo r (trace (runEvent X m w).1) = sendsTo r (trace w).
Proof.
  intros Hop Hst Hv.
  assert (Hh : ∀ w0 : Worker, vbuckets w0 !! VBucket m = Some v →
                 handleEvent X m w0 = (w0, Some v)).
  { intros w0 Hv0. unfold handleEvent. by rewrite Hop, Hst, Hv0. }
  split; [by apply Hh|].
  unfold runEvent. rewrite Hh by done. rewrite Hop. simpl.
  case_decide; simpl; [done|].
  rewrite publications_app. simpl. rewrite app_nil_r.
  repeat split; try done. intros r. rewrite sendsTo_app. simpl.
  by rewrite app_nil_r.
Qed.

(** C8 (amended).  A Snapshot, Mutation, Deletion, Expiration, System
    event, Sequence-advanced or OSO-snapshot event for a shard that has no
    Open state is dropped: [handleEvent] returns nil and leaves the whole
    worker (shard table, counters, endpoint table, log) as it was, and the
    loop goes on with the next message; the one thing that has changed is
    the [outgoingMut] statistic, in which the loop counts the event as
    consumed before handing it over. *)
Theorem event_for_absent_shard_dropped m w :
  isDataEvent (Opcode m) = true → vbuckets w !! VBucket m = None →
  handleEvent X m w = (w, None) ∧
  step X (FromDatach (vwCmdEvent m)) w = Running (set_stats add_outgoingMut w).
Proof.
  intros Hop Hv.
  assert (Hh : ∀ w0 : Worker, vbuckets w0 !! VBucket m = None →
                 handleEvent X m w0 = (w0, None)).
  { intros w0 Hv0. unfold handleEvent. rewrite Hv0.
    by destruct (Opcode m). }
  split; [by apply Hh|].
  unfold step, runEvent. by rewrite Hh.
Qed.

(** C1.  On an Open shard, the stored sequence number becomes the event's
    sequence number when the opcode is Mutation, Deletion, Expiration,
    System event or Sequence-advanced; a Snapshot marker and an OSO
    snapshot leave the shard state in place with the sequence number it
    had; and under every opcode outside the first group whatever state the
    shard still has afterwards carries the old sequence number.  The other
    shards are not touched, unless the event is a StreamBegin or StreamEnd
    of their own. *)
Theorem seqno_set_by_advancing_opcodes m w v :
  vbuckets w !! VBucket m = Some v →
  (advancesSeqno (Opcode m) = true →
     ∃ v', vbuckets (handleEvent X m w).1 !! VBucket m = Some v' ∧
           seqno v' = Seqno m) ∧
  (Opcode m = DCP_SNAPSHOT ∨ Opcode m = DCP_OSO_SNAPSHOT →
     ∃ v', vbuckets (handleEvent X m w).1 !! VBucket m = Some v' ∧
           seqno v' = seqno v) ∧
  (advancesSeqno (Opcode m) = false →
     ∀ v', vbuckets (handleEvent X m w).1 !! VBucket m = Some v' →
           seqno v' = seqno v) ∧
  (∀ vb, vb ≠ VBucket m →
     vbuckets (handleEvent X m w).1 !! vb = vbuckets w !! vb).
Proof.
  intros Hv. unfold handleEvent. rewrite Hv.
  destruct (Opcode m) eqn:Hop; simpl;
    try destruct (Status_ m); simpl;
    repeat case_match; simpl;
    rewrite ?publish_vbuckets, ?broadcast_vbuckets,
      ?processMutation_vbuckets; simpl;
    (split; [intros ?|split; [intros [?|?]|split; [intros ?|intros vb ?]]]);
    try done;
    rewrite ?lookup_insert_eq, ?lookup_delete_eq, ?lookup_insert_ne,
      ?lookup_delete_ne by done;
    eauto; try congruence;
    by intros ? [= <-].
Qed.

(** What [handleEvent] does with a Mutation, Deletion or Expiration on an
    Open shard whose collection has no engine. *)
Lemma handleEvent_updateSeqno m w v :
  isMutation (Opcode m) = true →
  vbuckets w !! VBucket m = Some v →
  engines w !! CollectionID m = None →
  handleEvent X m w =
  (publish X
     (makeUpdateSeqnoData X (set_seqno (Seqno m) (incr_mutationCount v)) m
        (engines w))
     (set_stats add_updateSeqno
        (set_vbuckets
           (<[VBucket m := set_seqno (Seqno m) (incr_mutationCount v)]>) w)),
   Some (set_seqno (Seqno m) (incr_mutationCount v))).
Proof.
  intros Hop Hv He. unfold handleEvent. rewrite Hv.
  destruct (Opcode m); try done; simpl; by rewrite He.
Qed.

(** C2 (amended).  A Mutation, Deletion or Expiration on an Open shard
    whose collection id has no engine in the engine map increments the
    updateSeqno statistic and the shard's mutation count, makes the event's
    sequence number the shard's sequence number, and calls no engine.  When
    [makeUpdateSeqnoData] yields a payload, that payload is broadcast: it is
    the one publication of the event and every endpoint of the table is
    sent it exactly once.  When [makeUpdateSeqnoData] yields nil, the event
    leaves no trace in the log: nothing is published and nothing is sent. *)
Theorem mutation_without_engine m w v :
  isMutation (Opcode m) = true →
  vbuckets w !! VBucket m = Some v →
  engines w !! CollectionID m = None →
  ∃ v' sfx,
    (handleEvent X m w).2 = Some v' ∧
    vbuckets (handleEvent X m w).1 !! VBucket m = Some v' ∧
    seqno v' = Seqno m ∧
    mutationCount v' = incr64 (mutationCount v) ∧
    updateSeqno (stats (handleEvent X m w).1) = incr64 (updateSeqno (stats w)) ∧
    trace (handleEvent X m w).1 = trace w ++ sfx ∧
    transforms sfx = [] ∧
    match makeUpdateSeqnoData X v' m (engines w) with
    | Some d =>
        publications sfx = [d] ∧
        ∀ r, is_Some (endpoints w !! r) → ∃ b, sendsTo r sfx = [(d, b)]
    | None => sfx = []
    end.
Proof.
  intros Hop Hv He. rewrite (handleEvent_updateSeqno m w v) by done.
  set (v' := set_seqno (Seqno m) (incr_mutationCount v)).
  exists v'. simpl.
  destruct (makeUpdateSeqnoData X v' m (engines w)) as [d|]; simpl.
  - match goal with |- context [broadcast2Endpoints X d ?w1] =>
      destruct (broadcast_spec d w1) as (Hc & sfx & Ht & Hd & Hin & Hout)
    end.
    apply core_fields in Hc as (-> & _ & -> & _). simpl in *.
    exists (EPublish d :: sfx). rewrite lookup_insert_eq.
    repeat split; try done.
    + simpl. by eapply delivery_transforms.
    + simpl. by erewrite delivery_publications.
    + intros r [ep Hep]. destruct (Hin r ep Hep) as (b & Hs & _).
      exists b. simpl. done.
  - exists []. rewrite lookup_insert_eq, app_nil_r. by repeat split.
Qed.

(** The engine map an install leaves: the engines of the message, each
    under its collection id and its engine id; empty when the message has
    no engines slot. *)
Lemma install_engines opq (engs : option (gmap N Engine))
    (eps : option (gmap string RouterEndpoint)) w cid uuid :
  lookupEngine (engines (handleCommand X (vwCmdAddEngines opq engs eps) w).1.1)
    cid uuid =
  (engs ≫= (λ es : gmap N Engine, es !! uuid)) ≫=
    (λ e, if decide (getCidAsUint32 X (GetCollectionID X e) = cid)
          then Some e else None).
Proof.
  assert (Hl : ∀ es : gmap N Engine,
    lookupEngine (foldl (addEngine X) ∅ (map_to_list es)) cid uuid =
    es !! uuid ≫= (λ e, if decide (getCidAsUint32 X (GetCollectionID X e) = cid)
                        then Some e else None)).
  { intros es. rewrite lookupEngine_addEngines by apply NoDup_fst_map_to_list.
    rewrite list_to_map_to_list. destruct (es !! uuid); simpl; [|done].
    by case_decide. }
  destruct engs as [es|], eps as [ep|]; simpl; by rewrite ?Hl.
Qed.

(** C3 (amended).  After Install/Replace Engines with a candidate endpoint
    set, the endpoint table holds exactly the candidate endpoints whose
    address is referenced by at least one engine of the new engine map. *)
Theorem endpoints_after_install opq (engs : option (gmap N Engine))
    (eps : gmap string RouterEndpoint) w r ep :
  endpoints (handleCommand X (vwCmdAddEngines opq engs (Some eps)) w).1.1 !! r
    = Some ep ↔
  eps !! r = Some ep ∧
  referenced X
    (engines (handleCommand X (vwCmdAddEngines opq engs (Some eps)) w).1.1) r.
Proof. destruct engs; simpl; apply updateEndpoints_lookup. Qed.

(** Remove Engines leaves the endpoint table as it is. *)
Lemma endpoints_after_remove opq (ks cs : list N) w :
  endpoints (handleCommand X (DeleteEngines opq ks cs) w).1.1 = endpoints w.
Proof. by apply handleCommand_endpoints. Qed.

(** C9.  Install/Replace Engines, as [AddEngines] posts it: the engine map
    becomes the engines passed in, each under its collection id and its
    engine id, whatever the map held before; the endpoint table is
    recomputed from the new engine map and the candidate set passed in; the
    shards are not touched; and the response gives, for every shard Open
    in the worker and for no other, the shard's sequence number. *)
Theorem AddEngines_replaces_engine_map opq (engs : gmap N Engine)
    (eps : gmap string RouterEndpoint) w :
  keyed w →
  ∃ w' cs,
    handleCommand X (AddEngines opq engs eps) w = (w', Some (RSeqnos cs), Next) ∧
    (∀ cid uuid,
       lookupEngine (engines w') cid uuid =
       engs !! uuid ≫=
         (λ e, if decide (getCidAsUint32 X (GetCollectionID X e) = cid)
               then Some e else None)) ∧
    (∀ r ep, endpoints w' !! r = Some ep ↔
             eps !! r = Some ep ∧ referenced X (engines w') r) ∧
    vbuckets w' = vbuckets w ∧
    (∀ vb, cs !! vb = seqno <$> vbuckets w !! vb).
Proof.
  intros Hk. eexists _, _. split; [reflexivity|].
  split; [intros cid uuid; apply (install_engines opq (Some engs) (Some eps))|].
  split; [intros r ep; simpl; apply updateEndpoints_lookup|].
  split; [done|].
  intros vb. by rewrite cseqnos_lookup.
Qed.

(** C10 (amended).  An install whose engines slot is nil, or whose engines
    map is nil, leaves the engine map empty whatever it held before.  While
    the engine map is empty, a Mutation, Deletion or Expiration on any
    collection calls no engine, and whatever it publishes or sends is the
    update-sequence payload of the event; on an Open shard it is counted in
    the updateSeqno statistic and publishes what [makeUpdateSeqnoData]
    yields, which is nothing at all when that is nil; on a shard that is not
    Open the event is dropped: nothing is published and the worker is left
    as it was.  The engine map stays empty until a message that installs
    engines arrives. *)
Theorem nil_engines_leave_only_update_seqno m w2 :
  engines w2 = ∅ → isMutation (Opcode m) = true →
  (∀ opq eps w,
     engines (handleCommand X (vwCmdAddEngines opq None eps) w).1.1 = ∅ ∧
     engines (handleCommand X (vwCmdAddEngines opq (Some ∅) eps) w).1.1 = ∅) ∧
  engines (handleEvent X m w2).1 = ∅ ∧
  (∀ msg, (∀ opq engs eps, msg ≠ FromSbch (vwCmdAddEngines opq engs eps)) →
          engines (worker_of (step X msg w2)) = ∅) ∧
  ∃ sfx,
    trace (handleEvent X m w2).1 = trace w2 ++ sfx ∧
    transforms sfx = [] ∧
    Forall (isBroadcastOf
              (λ d, ∃ v, makeUpdateSeqnoData X v m ∅ = Some d)) sfx ∧
    (∀ v, vbuckets w2 !! VBucket m = Some v →
       updateSeqno (stats (handleEvent X m w2).1)
         = incr64 (updateSeqno (stats w2)) ∧
       publications sfx =
         option_list (makeUpdateSeqnoData X
                        (set_seqno (Seqno m) (incr_mutationCount v)) m ∅) ∧
       (makeUpdateSeqnoData X
          (set_seqno (Seqno m) (incr_mutationCount v)) m ∅ = None →
        sfx = [])) ∧
    (vbuckets w2 !! VBucket m = None →
       sfx = [] ∧ handleEvent X m w2 = (w2, None)).
Proof.
  intros He Hop. split.
  { intros opq eps w. split; by destruct eps. }
  split; [by rewrite handleEvent_engines|].
  split.
  { intros msg Hmsg.
    destruct (decide (changesEngines msg = true)) as [Hch|Hch].
    - destruct msg as [[|opq engs eps|opq ks cs| | |]|]; try done.
      + by destruct (Hmsg opq engs eps).
      + simpl. rewrite He.
        pose proof (delEngines_empty 0 ks cs) as Hd.
        destruct (delEngines ∅ 0 ks cs) as [[?|] g]; simpl in Hd; subst g;
          [done|exact (shutdown_engines (set_engines (λ _, ∅) w2))].
    - rewrite step_engines; [done|by destruct (changesEngines msg)]. }
  destruct (vbuckets w2 !! VBucket m) as [v|] eqn:Hv.
  - rewrite (handleEvent_updateSeqno m w2 v) by (by rewrite ?He).
    rewrite He. simpl.
    set (v' := set_seqno (Seqno m) (incr_mutationCount v)).
    destruct (makeUpdateSeqnoData X v' m ∅) as [d|] eqn:Hd; simpl.
    + match goal with |- context [broadcast2Endpoints X d ?w1] =>
        destruct (broadcast_spec d w1) as (Hc & sfx & Ht & Hsfx & _)
      end.
      apply core_fields in Hc as (_ & _ & Hst & _).
      exists (EPublish d :: sfx). split; [done|].
      split; [simpl; by eapply delivery_transforms|].
      split.
      * constructor; [by exists v'|].
        eapply delivery_broadcast; [|exact Hsfx].
        intros r d' [-> _]. by exists v'.
      * split; [|done]. intros v0 [= <-]. rewrite Hst. split; [done|].
        fold v'. rewrite Hd. split; [|done]. simpl.
        by erewrite delivery_publications.
    + exists []. rewrite app_nil_r.
      split; [done|]. split; [done|]. split; [constructor|].
      split; [|done].
      intros v0 [= <-]. fold v'. by rewrite Hd.
  - exists []. rewrite app_nil_r.
    assert (handleEvent X m w2 = (w2, None)) as ->.
    { unfold handleEvent. rewrite Hv. by destruct (Opcode m). }
    split; [done|]. split; [done|]. split; [constructor|].
    split; [done|]. by intros _.
Qed.

(** C4 (amended).  Close ends the loop, and the deferred function
    publishes, before it closes the termination channel and sets the closed
    flag, the StreamEnd payload of every Open shard for which
    [makeStreamEndData] yields one: one publication per such shard and no
    other publication; a shard for which it yields nil gets none. *)
Theorem close_publishes_stream_ends w :
  ∃ w' sfx,
    step X (FromSbch vwCmdClose) w = Terminated w' ∧
    trace w' = trace w ++ sfx ++ [ECloseFinch; ESetClosed] ∧
    publications sfx =
      omap (λ kv, makeStreamEndData X kv.2 (engines w))
        (map_to_list (vbuckets w)) ∧
    Forall (isBroadcastOf
              (λ d, ∃ vb v, vbuckets w !! vb = Some v ∧
                            makeStreamEndData X v (engines w) = Some d)) sfx ∧
    finch w' = true ∧ IsClosed (stats w') = true.
Proof.
  destruct (streamEndLoop_spec (map_to_list (vbuckets w)) w)
    as (sfx & Ht & Hp & Hall).
  eexists _, sfx. split; [reflexivity|]. unfold shutdown. simpl.
  split; [by rewrite Ht, <- !app_assoc|]. split; [done|]. split; [|done].
  eapply Forall_impl; [exact Hall|].
  intros [] ?; simpl in *; try done;
    match goal with H : ∃ _, _ |- _ => destruct H as ([vb v] & Hin & ?) end;
    apply elem_of_map_to_list in Hin; by exists vb, v.
Qed.

(** With a StreamEnd payload for every Open shard, Close publishes as
    many StreamEnds as there are Open shards. *)
Lemma close_publishes_all w :
  (∀ vb v, vbuckets w !! vb = Some v →
           is_Some (makeStreamEndData X v (engines w))) →
  length (omap (λ kv, makeStreamEndData X kv.2 (engines w))
            (map_to_list (vbuckets w))) = size (vbuckets w).
Proof.
  intros Hall. rewrite <- length_map_to_list.
  assert (Hl : ∀ kv, kv ∈ map_to_list (vbuckets w) →
                     is_Some (makeStreamEndData X kv.2 (engines w))).
  { intros [vb v] Hin%elem_of_map_to_list. by eapply Hall. }
  induction (map_to_list (vbuckets w)) as [|kv l IH]; [done|]. simpl.
  destruct (Hl kv) as [d ->]; [left|]. simpl.
  f_equal. apply IH. intros ??. apply Hl. by right.
Qed.

(** C7 (amended).  A data event on an Open shard whose correlation id
    ([Opaque]) differs from the one the shard state was opened with ends
    the process; when the two agree the loop goes on, whatever the epoch
    ids ([VBuuid]) of the event and of the shard state are.  Nothing else
    ends the process: a message after which the process is gone is an event
    for an Open shard whose correlation id differs from the shard's. *)
Theorem exit_only_on_opaque_mismatch w :
  (∀ m v, isDataEvent (Opcode m) = true → vbuckets w !! VBucket m = Some v →
     (Opaque m ≠ opaque v →
        ∃ w', step X (FromDatach (vwCmdEvent m)) w = Exited w') ∧
     (Opaque m = opaque v →
        ∃ w', step X (FromDatach (vwCmdEvent m)) w = Running w')) ∧
  (∀ msg w', step X msg w = Exited w' →
     ∃ m v, msg = FromDatach (vwCmdEvent m) ∧
            vbuckets w !! VBucket m = Some v ∧ Opaque m ≠ opaque v).
Proof.
  split.
  - intros m v Hop Hv. unfold step, runEvent.
    destruct (handleEvent_returns_open m (set_stats add_outgoingMut w) v Hop Hv)
      as (v' & Hret & Hopq & _).
    destruct (handleEvent X m _) as [w1 ov]. simpl in Hret. subst ov.
    rewrite decide_False by (intros Heq; by rewrite Heq in Hop).
    rewrite Hopq. split; intros ?; case_decide; try done; eauto.
  - intros msg w' Hstep. destruct msg as [cmd|[m|]]; simpl in Hstep.
    + by destruct (handleCommand X cmd w) as [[? ?] []].
    + exists m. unfold runEvent in Hstep.
      pose proof (handleEvent_returned m (set_stats add_outgoingMut w)) as Hret.
      destruct (handleEvent X m _) as [w1 [v'|]]; [|done].
      repeat case_decide; try done.
      destruct (Hret v' eq_refl) as [?|(v & Hv & Hopq)]; [done|].
      exists v. split; [done|]. split; [done|]. by rewrite <- Hopq.
    + done.
Qed.




(** * More of the worker *)

(** What [publish] adds to the log: the payload, if there is one, is the
    one publication, and every endpoint of the table is sent it once. *)
Lemma publish_spec (o : option Data) w :
  ∃ sfx,
    trace (publish X o w) = trace w ++ sfx ∧
    publications sfx = option_list o ∧
    transforms sfx = [] ∧
    Forall (isBroadcastOf (λ d, o = Some d)) sfx ∧
    (∀ r d, o = Some d → is_Some (endpoints w !! r) →
            ∃ failed, sendsTo r sfx = [(d, failed)]) ∧
    (∀ r ep, endpoints (publish X o w) !! r = Some ep →
             endpoints w !! r = Some ep).
Proof.
  destruct o as [d|]; simpl.
  - destruct (broadcast_spec d w) as (_ & sfx & Ht & Hd & Hin & Hout).
    exists (EPublish d :: sfx). split; [done|].
    split; [simpl; by erewrite delivery_publications|].
    split; [simpl; by eapply delivery_transforms|].
    split; [constructor; [done|];
            eapply delivery_broadcast; [|exact Hd]; by intros r d' [-> _]|].
    split.
    + intros r d' [= <-] [ep Hep].
      destruct (Hin r ep Hep) as (b & Hs & _). by exists b.
    + intros r ep Hr. destruct (endpoints w !! r) as [ep'|] eqn:Hep.
      * destruct (Hin r ep' Hep) as (b & _ & _ & Hend).
        rewrite Hend in Hr. by destruct b.
      * destruct (Hout r Hep) as (_ & _ & Hend). congruence.
  - exists []. rewrite app_nil_r. by repeat split.
Qed.

(** X1.  A successful StreamBegin for a shard that is not Open opens it:
    the shard state is created from the event (its shard id, epoch id,
    correlation id and starting sequence number, all counters at zero) and
    stored under the shard id, the other shards are not touched, the one
    publication is what [makeStreamBeginData] yields for the new state, and
    the loop goes on. *)
Theorem stream_begin_opens_shard m w :
  Opcode m = DCP_STREAMREQ → Status_ m = SUCCESS →
  vbuckets w !! VBucket m = None →
  ∃ v sfx,
    (handleEvent X m w).2 = Some v ∧
    vbuckets (handleEvent X m w).1 = <[VBucket m := v]> (vbuckets w) ∧
    (vbno v = VBucket m ∧ vbuuid v = VBuuid m ∧ seqno v = Seqno m ∧
     opaque v = Opaque m ∧
     syncCount v = 0%N ∧ sshotCount v = 0%N ∧ mutationCount v = 0%N) ∧
    trace (handleEvent X m w).1 = trace w ++ sfx ∧
    publications sfx =
      option_list (makeStreamBeginData X v (engines w)
                     (mcStatus2StreamStatus X v SUCCESS) (statusByte X SUCCESS)) ∧
    step X (FromDatach (vwCmdEvent m)) w
      = Running (handleEvent X m (set_stats add_outgoingMut w)).1.
Proof.
  intros Hop Hst Hv.
  assert (Hh : ∀ w0 : Worker, vbuckets w0 !! VBucket m = None →
    handleEvent X m w0 =
    (publish X
       (makeStreamBeginData X
          (NewVbucket (cluster w0) (topic w0) (bucket w0) (keyspaceId w0)
             (Opaque m) (VBucket m) (VBuuid m) (Seqno m) (opaque2 w0))
          (engines w0)
          (mcStatus2StreamStatus X
             (NewVbucket (cluster w0) (topic w0) (bucket w0) (keyspaceId w0)
                (Opaque m) (VBucket m) (VBuuid m) (Seqno m) (opaque2 w0))
             SUCCESS) (statusByte X SUCCESS))
       (set_vbuckets
          (<[VBucket m :=
               NewVbucket (cluster w0) (topic w0) (bucket w0) (keyspaceId w0)
                 (Opaque m) (VBucket m) (VBuuid m) (Seqno m) (opaque2 w0)]>) w0),
     Some (NewVbucket (cluster w0) (topic w0) (bucket w0) (keyspaceId w0)
             (Opaque m) (VBucket m) (VBuuid m) (Seqno m) (opaque2 w0)))).
  { intros w0 Hv0. unfold handleEvent. by rewrite Hop, Hst, Hv0. }
  eexists _. rewrite (Hh w Hv).
  match goal with |- context [publish X ?o ?w1] =>
    destruct (publish_spec o w1) as (sfx & Ht & Hp & _)
  end.
  exists sfx. simpl. rewrite publish_vbuckets.
  split; [done|]. split; [done|]. split; [done|]. split; [exact Ht|].
  split; [exact Hp|].
  unfold step, runEvent. rewrite (Hh (set_stats add_outgoingMut w) Hv). simpl.
  rewrite Hop. rewrite decide_False by done. by rewrite decide_True.
Qed.

(** X2.  A StreamBegin with a failure status creates no shard state and
    changes none, whether the shard is Open or not; what it publishes is
    what [makeStreamBeginData] yields for the failure, built on a shard
    state that is not kept; and the loop goes on. *)
Theorem failed_stream_begin_keeps_shards m w code :
  Opcode m = DCP_STREAMREQ → Status_ m = NOT_SUCCESS code →
  ∃ v sfx,
    v = NewVbucket (cluster w) (topic w) (bucket w) (keyspaceId w)
          (Opaque m) (VBucket m) (VBuuid m) (Seqno m) (opaque2 w) ∧
    (handleEvent X m w).2 = Some v ∧
    vbuckets (handleEvent X m w).1 = vbuckets w ∧
    trace (handleEvent X m w).1 = trace w ++ sfx ∧
    publications sfx =
      option_list (makeStreamBeginData X v (engines w)
                     (mcStatus2StreamStatus X v (NOT_SUCCESS code))
                     (statusByte X (NOT_SUCCESS code))) ∧
    step X (FromDatach (vwCmdEvent m)) w
      = Running (handleEvent X m (set_stats add_outgoingMut w)).1.
Proof.
  intros Hop Hst.
  assert (Hh : ∀ w0 : Worker,
    handleEvent X m w0 =
    (publish X
       (makeStreamBeginData X
          (NewVbucket (cluster w0) (topic w0) (bucket w0) (keyspaceId w0)
             (Opaque m) (VBucket m) (VBuuid m) (Seqno m) (opaque2 w0))
          (engines w0)
          (mcStatus2StreamStatus X
             (NewVbucket (cluster w0) (topic w0) (bucket w0) (keyspaceId w0)
                (Opaque m) (VBucket m) (VBuuid m) (Seqno m) (opaque2 w0))
             (NOT_SUCCESS code)) (statusByte X (NOT_SUCCESS code))) w0,
     Some (NewVbucket (cluster w0) (topic w0) (bucket w0) (keyspaceId w0)
             (Opaque m) (VBucket m) (VBuuid m) (Seqno m) (opaque2 w0)))).
  { intros w0. unfold handleEvent. rewrite Hop, Hst.
    by destruct (vbuckets w0 !! VBucket m). }
  eexists _. rewrite (Hh w).
  match goal with |- context [publish X ?o ?w1] =>
    destruct (publish_spec o w1) as (sfx & Ht & Hp & _)
  end.
  exists sfx. simpl. rewrite publish_vbuckets.
  split; [done|]. split; [done|]. split; [done|]. split; [exact Ht|].
  split; [exact Hp|].
  unfold step, runEvent. rewrite (Hh (set_stats add_outgoingMut w)). simpl.
  rewrite Hop. rewrite decide_False by done. by rewrite decide_True.
Qed.

(** X3.  A StreamEnd for an Open shard publishes what [makeStreamEndData]
    yields for the shard, removes the shard state and leaves the other
    shards alone; the loop goes on whatever the correlation id of the
    event.  A StreamEnd for a shard that is not Open changes nothing. *)
Theorem stream_end_closes_shard m w :
  Opcode m = DCP_STREAMEND →
  match vbuckets w !! VBucket m with
  | Some v =>
      ∃ sfx,
        (handleEvent X m w).2 = Some v ∧
        vbuckets (handleEvent X m w).1 = delete (VBucket m) (vbuckets w) ∧
        trace (handleEvent X m w).1 = trace w ++ sfx ∧
        publications sfx = option_list (makeStreamEndData X v (engines w))
  | None => handleEvent X m w = (w, None)
  end ∧
  ∃ w', step X (FromDatach (vwCmdEvent m)) w = Running w' ∧
        vbuckets w' !! VBucket m = None.
Proof.
  intros Hop.
  assert (Hh : ∀ w0 : Worker,
    handleEvent X m w0 =
    match vbuckets w0 !! VBucket m with
    | Some v => (set_vbuckets (delete (VBucket m))
                   (publish X (makeStreamEndData X v (engines w0)) w0), Some v)
    | None => (w0, None)
    end).
  { intros w0. unfold handleEvent. by rewrite Hop. }
  split.
  - rewrite Hh. destruct (vbuckets w !! VBucket m) as [v|]; [|done].
    destruct (publish_spec (makeStreamEndData X v (engines w)) w)
      as (sfx & Ht & Hp & _).
    exists sfx. simpl. by rewrite publish_vbuckets.
  - unfold step, runEvent. rewrite Hh, Hop. simpl.
    destruct (vbuckets w !! VBucket m) as [v|] eqn:Hv; simpl.
    + eexists. split; [done|]. simpl.
      rewrite publish_vbuckets. simpl.
      destruct (decide (vbno v = VBucket m)) as [->|Hne].
      * by rewrite lookup_delete_eq.
      * by rewrite lookup_delete_ne, lookup_delete_eq.
    + eexists. split; [done|]. done.
Qed.

(** X4.  A Snapshot marker for an Open shard is counted only when it is
    published: when [makeSnapshotData] yields a payload it is the one
    publication and the shard's snapshot count goes up by one, the rest of
    the shard state staying as it was; when it yields nil the worker is
    left unchanged. *)
Theorem snapshot_counted_when_published m w v :
  Opcode m = DCP_SNAPSHOT → vbuckets w !! VBucket m = Some v →
  match makeSnapshotData X v m (engines w) with
  | Some d =>
      ∃ sfx,
        (handleEvent X m w).2 = Some (incr_sshotCount v) ∧
        vbuckets (handleEvent X m w).1
          = <[VBucket m := incr_sshotCount v]> (vbuckets w) ∧
        trace (handleEvent X m w).1 = trace w ++ sfx ∧
        publications sfx = [d] ∧
        ∀ r, is_Some (endpoints w !! r) → ∃ failed, sendsTo r sfx = [(d, failed)]
  | None => handleEvent X m w = (w, Some v)
  end.
Proof.
  intros Hop Hv. unfold handleEvent. rewrite Hop, Hv.
  destruct (makeSnapshotData X v m (engines w)) as [d|]; [|done].
  destruct (publish_spec (Some d) w) as (sfx & Ht & Hp & _ & _ & Hs & _).
  exists sfx. simpl in *. rewrite broadcast_vbuckets.
  split; [done|]. split; [done|]. split; [done|]. split; [done|].
  intros r Hr. by apply Hs.
Qed.

(** X14.  A successful StreamBegin for a shard that is already Open ends
    the process when its correlation id differs from the one the shard was
    opened with; when the two agree the loop goes on and the event has only
    been counted as consumed. *)
Theorem duplicate_stream_begin_exit m w v :
  Opcode m = DCP_STREAMREQ → Status_ m = SUCCESS →
  vbuckets w !! VBucket m = Some v →
  step X (FromDatach (vwCmdEvent m)) w =
    if decide (Opaque m = opaque v)
    then Running (set_stats add_outgoingMut w)
    else Exited (emit EExit (set_stats add_outgoingMut w)).
Proof.
  intros Hop Hst Hv. unfold step, runEvent.
  assert (handleEvent X m (set_stats add_outgoingMut w)
          = (set_stats add_outgoingMut w, Some v)) as ->.
  { unfold handleEvent. rewrite Hop, Hst. simpl. by rewrite Hv. }
  rewrite Hop. simpl. by case_decide.
Qed.

(** ** Sync pulse *)

Lemma syncLoop_spec (l : list (N * Vbucket)) (engs : gmap N (gmap N Engine)) :
  NoDup l.*1 → ∀ w, engines w = engs →
  (∀ k, vbuckets (foldl (syncOne X) w l) !! k =
        match (list_to_map l : gmap N Vbucket) !! k with
        | Some v => if makeSyncData X v engs is Some _
                    then Some (incr_syncCount v) else vbuckets w !! k
        | None => vbuckets w !! k
        end) ∧
  ∃ sfx,
    trace (foldl (syncOne X) w l) = trace w ++ sfx ∧
    publications sfx = omap (λ kv, makeSyncData X kv.2 engs) l ∧
    transforms sfx = [].
Proof.
  induction l as [|[k0 v0] l IH]; intros Hnd w He; simpl.
  { split; [done|]. exists []. by rewrite app_nil_r. }
  apply NoDup_cons in Hnd as [Hk0 Hnd].
  assert (engines (syncOne X w (k0, v0)) = engs) as He1.
  { unfold syncOne. destruct (makeSyncData X _ _); [|done].
    by rewrite broadcast_engines. }
  destruct (IH Hnd (syncOne X w (k0, v0)) He1) as (Hv & sfx & Ht & Hp & Htr).
  assert (Hone : ∃ sfx0,
    trace (syncOne X w (k0, v0)) = trace w ++ sfx0 ∧
    publications sfx0 = option_list (makeSyncData X v0 engs) ∧
    transforms sfx0 = [] ∧
    vbuckets (syncOne X w (k0, v0)) =
      if makeSyncData X v0 engs is Some _
      then <[k0 := incr_syncCount v0]> (vbuckets w) else vbuckets w).
  { unfold syncOne. simpl. rewrite He.
    destruct (makeSyncData X v0 engs) as [d|]; simpl.
    - match goal with |- context [broadcast2Endpoints X d ?w1] =>
        destruct (publish_spec (Some d) w1) as (sfx0 & Ht0 & Hp0 & Htr0 & _)
      end.
      exists sfx0. simpl in *. by rewrite broadcast_vbuckets.
    - exists []. by rewrite app_nil_r. }
  destruct Hone as (sfx0 & Ht0 & Hp0 & Htr0 & Hv0).
  split.
  - intros k. rewrite Hv, Hv0.
    destruct (decide (k = k0)) as [->|Hne].
    + rewrite lookup_insert_eq, (not_elem_of_list_to_map_1 l k0 Hk0).
      destruct (makeSyncData X v0 engs); [by rewrite lookup_insert_eq|done].
    + rewrite (lookup_insert_ne (list_to_map l)) by done.
      destruct (makeSyncData X v0 engs); [|done].
      by rewrite lookup_insert_ne by done.
  - exists (sfx0 ++ sfx). split; [by rewrite Ht, Ht0, app_assoc|].
    rewrite publications_app, transforms_app, Hp, Hp0, Htr, Htr0.
    split; [|done]. by destruct (makeSyncData X v0 engs).
Qed.

(** X5.  A sync pulse publishes, for every Open shard, what
    [makeSyncData] yields for it, and counts the pulse in the shard's sync
    count exactly when there was a payload; it opens and closes no shard,
    changes nothing else of a shard state and calls no engine. *)
Theorem sync_pulse_counts_published w :
  (∀ vb, vbuckets (syncPulse X w) !! vb =
         (λ v, if makeSyncData X v (engines w) is Some _
               then incr_syncCount v else v) <$> vbuckets w !! vb) ∧
  ∃ sfx,
    step X (FromDatach vwCmdSyncPulse) w = Running (syncPulse X w) ∧
    trace (syncPulse X w) = trace w ++ sfx ∧
    publications sfx =
      omap (λ kv, makeSyncData X kv.2 (engines w)) (map_to_list (vbuckets w)) ∧
    transforms sfx = [].
Proof.
  destruct (syncLoop_spec (map_to_list (vbuckets w)) (engines w)
              (NoDup_fst_map_to_list _) w eq_refl) as (Hv & sfx & Ht & Hp & Htr).
  split.
  - intros vb. unfold syncPulse. rewrite Hv, list_to_map_to_list.
    destruct (vbuckets w !! vb) as [v|]; simpl; [|done].
    by destruct (makeSyncData X v (engines w)).
  - by exists sfx.
Qed.

(** ** Removing engines *)

Lemma lookupEngine_delEngine (engs : gmap N (gmap N Engine)) cid uuid c u :
  lookupEngine (delEngine engs cid uuid) c u =
  if decide (c = cid ∧ u = uuid) then None else lookupEngine engs c u.
Proof.
  unfold lookupEngine, delEngine.
  destruct (engs !! cid) as [inner|] eqn:Hcid.
  - destruct (decide (size (delete uuid inner) = 0)) as [Hsz|Hsz].
    + apply map_size_empty_inv in Hsz.
      destruct (decide (c = cid)) as [->|Hc].
      * rewrite lookup_delete_eq, Hcid. simpl.
        destruct (decide (u = uuid)) as [->|Hu].
        -- by rewrite decide_True.
        -- rewrite decide_False by tauto.
           by rewrite <- (lookup_delete_ne inner uuid u), Hsz, lookup_empty.
      * rewrite lookup_delete_ne by done. by rewrite decide_False by tauto.
    + destruct (decide (c = cid)) as [->|Hc].
      * rewrite lookup_insert_eq, Hcid. simpl.
        destruct (decide (u = uuid)) as [->|Hu].
        -- by rewrite decide_True, lookup_delete_eq.
        -- rewrite decide_False by tauto. by rewrite lookup_delete_ne.
      * rewrite lookup_insert_ne by done. by rewrite decide_False by tauto.
  - case_decide as Hcu; [|done]. destruct Hcu as [-> ->]. by rewrite Hcid.
Qed.

Lemma delEngines_spec (ks cs : list N) :
  ∀ i (engs : gmap N (gmap N Engine)),
  (is_Some (delEngines engs i ks cs).1 ↔ i + length ks ≤ length cs ∨ ks = []) ∧
  (i + length ks ≤ length cs →
   ∀ c u, lookupEngine (delEngines engs i ks cs).2 c u =
          if decide ((c, u) ∈ zip (drop i cs) ks) then None
          else lookupEngine engs c u).
Proof.
  induction ks as [|k ks IH]; intros i engs; simpl.
  { split; [split; [by right|by eauto]|].
    intros _ c u. rewrite zip_with_nil_r.
    by rewrite decide_False by apply not_elem_of_nil. }
  destruct (cs !! i) as [cid|] eqn:Hi; simpl.
  - destruct (IH (S i) (delEngine engs cid k)) as [Hsome Hlook].
    apply lookup_lt_Some in Hi as Hlt.
    split.
    + rewrite Hsome. split.
      * intros [?| ->]; left; simpl in *; lia.
      * intros [?|?]; [left; lia|done].
    + intros Hlen c u. rewrite Hlook by lia.
      rewrite lookupEngine_delEngine.
      rewrite (drop_S cs cid i Hi). simpl.
      destruct (decide ((c, u) ∈ zip (drop (S i) cs) ks)) as [Hin|Hin].
      * rewrite decide_True; [done|by right].
      * destruct (decide (c = cid ∧ u = k)) as [[-> ->]|Hne].
        -- rewrite decide_True; [done|by left].
        -- rewrite decide_False; [done|].
           intros [[= -> ->]|?]%elem_of_cons; tauto.
  - apply lookup_ge_None in Hi. split.
    + split; [by intros [? ?]|]. intros [?|?]; [lia|done].
    + intros ?. lia.
Qed.

(** X6.  Remove Engines with a collection id for every engine id removes
    exactly the (collection id, engine id) pairs it is given: those pairs
    are no longer in the engine map, every other engine is where it was,
    the caller gets its response and the loop goes on; shards, endpoint
    table and log are not touched. *)
Theorem delete_engines_removes_pairs opq (ks cs : list N) w :
  length ks ≤ length cs →
  ∃ w',
    handleCommand X (DeleteEngines opq ks cs) w = (w', Some RNil, Next) ∧
    (∀ c u, lookupEngine (engines w') c u =
            if decide ((c, u) ∈ zip cs ks) then None
            else lookupEngine (engines w) c u) ∧
    vbuckets w' = vbuckets w ∧ endpoints w' = endpoints w ∧
    trace w' = trace w.
Proof.
  intros Hlen. simpl.
  destruct (delEngines_spec ks cs 0 (engines w)) as [Hsome Hlook].
  destruct (delEngines (engines w) 0 ks cs) as [[e|] engs'] eqn:Hd; simpl in *.
  - eexists. split; [done|]. split; [|done]. intros c u. simpl.
    by rewrite (Hlook Hlen c u).
  - destruct (proj2 Hsome (or_introl Hlen)) as [? ?]. done.
Qed.

Lemma shutdown_vbuckets w : vbuckets (shutdown X w) = vbuckets w.
Proof.
  unfold shutdown. simpl. apply core_fields, streamEndLoop_core.
Qed.

(** X7.  Remove Engines with fewer collection ids than engine ids runs
    into the end of the collection ids: the worker answers nothing, and the
    loop ends through its deferred function, which closes the termination
    channel and sets the closed flag. *)
Theorem delete_engines_short_ids_terminates opq (ks cs : list N) w :
  length cs < length ks →
  ∃ w1 w',
    handleCommand X (DeleteEngines opq ks cs) w = (w1, None, Panic) ∧
    step X (FromSbch (DeleteEngines opq ks cs)) w = Terminated w' ∧
    w' = shutdown X w1 ∧
    finch w' = true ∧ IsClosed (stats w') = true ∧
    vbuckets w' = vbuckets w.
Proof.
  intros Hlen. simpl.
  destruct (delEngines_spec ks cs 0 (engines w)) as [Hsome _].
  destruct (delEngines (engines w) 0 ks cs) as [[e|] engs'] eqn:Hd; simpl in *.
  - destruct (proj1 Hsome) as [?| ->]; [by eexists|lia|simpl in Hlen; lia].
  - eexists _, _. split; [done|]. split; [done|]. split; [done|].
    split; [done|]. split; [done|].
    apply (shutdown_vbuckets (set_engines (λ _, engs') w)).
Qed.

(** ** The engine map has no empty collection *)

Lemma noEmptyCollection_addEngines (l : list (N * Engine)) :
  ∀ engs : gmap N (gmap N Engine),
  noEmptyCollection engs → noEmptyCollection (foldl (addEngine X) engs l).
Proof.
  induction l as [|[u e] l IH]; intros engs Hne; [done|]. simpl.
  apply IH. intros cid inner. unfold addEngine. simpl.
  destruct (decide (cid = getCidAsUint32 X (GetCollectionID X e))) as [->|Hc].
  - rewrite lookup_insert_eq. intros [= <-]. apply insert_non_empty.
  - rewrite lookup_insert_ne by done. apply Hne.
Qed.

Lemma noEmptyCollection_delEngine (engs : gmap N (gmap N Engine)) cid uuid :
  noEmptyCollection engs → noEmptyCollection (delEngine engs cid uuid).
Proof.
  intros Hne c inner. unfold delEngine.
  destruct (engs !! cid) as [inner0|] eqn:Hcid; [|apply Hne].
  case_decide as Hsz.
  - intros Hl. apply lookup_delete_Some in Hl as [_ Hl]. by eapply Hne.
  - destruct (decide (c = cid)) as [->|Hc].
    + rewrite lookup_insert_eq. intros [= <-].
      by apply map_size_non_empty_iff.
    + rewrite lookup_insert_ne by done. apply Hne.
Qed.

Lemma noEmptyCollection_delEngines (ks cs : list N) :
  ∀ i (engs : gmap N (gmap N Engine)),
  noEmptyCollection engs → noEmptyCollection (delEngines engs i ks cs).2.
Proof.
  induction ks as [|k ks IH]; intros i engs Hne; simpl; [done|].
  destruct (cs !! i); [|done]. by apply IH, noEmptyCollection_delEngine.
Qed.

Lemma noEmptyCollection_step (msg : Msg Engine RouterEndpoint) w :
  noEmptyCollection (engines w) →
  noEmptyCollection (engines (worker_of (step X msg w))).
Proof.
  intros Hne.
  destruct (decide (changesEngines msg = true)) as [Hch|Hch].
  - destruct msg as [[|opq engs eps|opq ks cs| | |]|]; try done; simpl.
    + assert (noEmptyCollection
                (engines (handleCommand X (vwCmdAddEngines opq engs eps) w).1.1))
        as Hnew.
      { destruct engs as [es|], eps as [ep|]; simpl;
          try apply noEmptyCollection_addEngines;
          by intros ??; rewrite lookup_empty. }
      by destruct engs, eps.
    + pose proof (noEmptyCollection_delEngines ks cs 0 (engines w) Hne) as Hd.
      destruct (delEngines (engines w) 0 ks cs) as [[?|] engs'];
        simpl in Hd; [done|].
      change (noEmptyCollection
                (engines (shutdown X (set_engines (λ _, engs') w)))).
      by rewrite shutdown_engines.
  - rewrite step_engines; [done|by destruct (changesEngines msg)].
Qed.

Lemma noEmptyCollection_run (msgs : list (Msg Engine RouterEndpoint)) :
  ∀ w, noEmptyCollection (engines w) →
       noEmptyCollection (engines (worker_of (run X msgs w))).
Proof.
  induction msgs as [|msg msgs IH]; intros w Hne; simpl; [done|].
  pose proof (noEmptyCollection_step msg w Hne) as Hs.
  destruct (step X msg w) as [w1|w1|w1]; simpl in *; try done.
  by apply IH.
Qed.

Lemma noEmptyCollection_new i (c t b k : string) (o s o2 : N) :
  noEmptyCollection
    (engines (NewVbucketWorker (Engine := Engine)
                (RouterEndpoint := RouterEndpoint) (Data := Data)
                i c t b k o s o2)).
Proof. intros ??. simpl. by rewrite lookup_empty. Qed.

(** X8.  In every state the loop reaches from a new worker, a collection
    id has an entry in the engine map exactly when at least one engine is
    installed under it: installing creates the entry with its first
    engine, and removing the last engine of a collection removes the
    entry. *)
Theorem collection_entry_iff_engine (msgs : list (Msg Engine RouterEndpoint))
    i (c t b k : string) (o s o2 : N) cid :
  is_Some (engines (worker_of (run X msgs
             (NewVbucketWorker i c t b k o s o2))) !! cid) ↔
  ∃ uuid, is_Some (lookupEngine (engines (worker_of (run X msgs
             (NewVbucketWorker i c t b k o s o2)))) cid uuid).
Proof.
  pose proof (noEmptyCollection_run msgs _
                (noEmptyCollection_new i c t b k o s o2)) as Hne.
  set (w := worker_of (run X msgs (NewVbucketWorker i c t b k o s o2))) in *.
  unfold lookupEngine. split.
  - intros [inner Hin]. rewrite Hin. simpl.
    destruct (map_choose inner) as (uuid & e & He); [by eapply Hne|].
    exists uuid. by rewrite He.
  - intros [uuid [e He]]. destruct (engines w !! cid); [done|done].
Qed.

(** ** Statistics and the shard set *)

Lemma float64_exact n : (n < 2 ^ 53)%N → float64 n = n.
Proof.
  intros Hn. unfold float64.
  destruct (N.leb_spec (N.size n) 53) as [_|Hsz]; [done|].
  destruct (decide (n = 0%N)) as [->|Hn0]; [done|].
  pose proof (N.size_le n) as Hle.
  assert (2 ^ 54 ≤ 2 ^ N.size n)%N by (apply N.pow_le_mono_r; lia).
  lia.
Qed.

Lemma statistics_fold (l : list (N * Vbucket)) vb :
  NoDup l.*1 → ∀ acc : gmap string (N * N * N),
  foldl (λ acc kv, <[pretty kv.1 := (float64 (syncCount kv.2),
                                      float64 (sshotCount kv.2),
                                      float64 (mutationCount kv.2))]> acc) acc l
    !! pretty vb =
  match (list_to_map l : gmap N Vbucket) !! vb with
  | Some v => Some (counters v)
  | None => acc !! pretty vb
  end.
Proof.
  induction l as [|[k v] l IH]; intros Hnd acc; [done|].
  apply NoDup_cons in Hnd as [Hk Hnd]. simpl. rewrite IH by done.
  destruct (decide (vb = k)) as [->|Hne].
  - by rewrite lookup_insert_eq, (not_elem_of_list_to_map_1 l k Hk),
      lookup_insert_eq.
  - rewrite (lookup_insert_ne (list_to_map l)) by done.
    destruct (list_to_map l !! vb); [done|].
    rewrite lookup_insert_ne; [done|]. by intros ?%(inj pretty).
Qed.

Lemma statistics_keys (l : list (N * Vbucket)) (key : string) :
  ∀ acc : gmap string (N * N * N),
  is_Some (foldl (λ acc kv, <[pretty kv.1 := (float64 (syncCount kv.2),
                                      float64 (sshotCount kv.2),
                                      float64 (mutationCount kv.2))]> acc)
             acc l !! key) →
  is_Some (acc !! key) ∨ ∃ k, k ∈ l.*1 ∧ key = pretty k.
Proof.
  induction l as [|[k v] l IH]; intros acc; simpl; [by left|].
  intros [Hs|(k' & Hin & ->)]%IH.
  - destruct (decide (key = pretty k)) as [->|Hne].
    + right. exists k. split; [left|done].
    + rewrite lookup_insert_ne in Hs by done. by left.
  - right. exists k'. split; [by right|done].
Qed.

(** X9.  Get Statistics answers, for every Open shard and under the decimal
    rendering of its shard id, with the shard's sync, snapshot and mutation
    counts converted to float64: the counts themselves as long as they are
    below 2^53, the nearest float64 above that; it answers with nothing
    under any other key, and leaves the worker as it was. *)
Theorem statistics_of_open_shards w :
  handleCommand X vwCmdGetStats w = (w, Some (RStats (statistics w)), Next) ∧
  (∀ vb, statistics w !! pretty vb =
         (λ v, (float64 (syncCount v), float64 (sshotCount v),
                float64 (mutationCount v))) <$> vbuckets w !! vb) ∧
  (∀ vb v, vbuckets w !! vb = Some v →
           (syncCount v < 2 ^ 53)%N → (sshotCount v < 2 ^ 53)%N →
           (mutationCount v < 2 ^ 53)%N →
           statistics w !! pretty vb
             = Some (syncCount v, sshotCount v, mutationCount v)) ∧
  (∀ key, is_Some (statistics w !! key) →
          ∃ vb, key = pretty vb ∧ is_Some (vbuckets w !! vb)).
Proof.
  assert (Hl : ∀ vb, statistics w !! pretty vb = counters <$> vbuckets w !! vb).
  { intros vb. unfold statistics.
    rewrite statistics_fold by apply NoDup_fst_map_to_list.
    rewrite list_to_map_to_list, lookup_empty.
    by destruct (vbuckets w !! vb). }
  split; [done|]. split; [exact Hl|]. split.
  - intros vb v Hv H1 H2 H3. rewrite Hl, Hv. simpl. unfold counters.
    by rewrite !float64_exact.
  - intros key Hs. apply statistics_keys in Hs as [Hs|(k & Hin & ->)].
    + rewrite lookup_empty in Hs. by destruct Hs.
    + exists k. split; [done|].
      apply list_elem_of_fmap in Hin as ([k' v] & -> & Hin).
      apply elem_of_map_to_list in Hin. by eexists.
Qed.

(** X10.  Query Shard Set answers with the states of the Open shards, one
    per shard id, and leaves the worker as it was. *)
Theorem GetVbuckets_lists_open_shards w :
  keyed w →
  ∃ vbs,
    handleCommand X vwCmdGetVbuckets w = (w, Some (RVbuckets vbs), Next) ∧
    length vbs = size (vbuckets w) ∧
    NoDup (vbno <$> vbs) ∧
    ∀ v, v ∈ vbs ↔ vbuckets w !! vbno v = Some v.
Proof.
  intros Hk. eexists. split; [done|].
  split; [by rewrite length_fmap, length_map_to_list|].
  assert (Hvb : vbno <$> (map_to_list (vbuckets w)).*2
                = (map_to_list (vbuckets w)).*1).
  { rewrite <- list_fmap_compose. apply list_fmap_ext.
    intros j [k v] Hin%list_elem_of_lookup_2%elem_of_map_to_list.
    simpl. by apply Hk. }
  split; [rewrite Hvb; apply NoDup_fst_map_to_list|].
  intros v. rewrite list_elem_of_fmap. split.
  - intros ([k v'] & -> & Hin%elem_of_map_to_list). simpl.
    by rewrite (Hk k v' Hin).
  - intros Hv. exists (vbno v, v). split; [done|].
    by apply elem_of_map_to_list.
Qed.

(** X11.  In every state the loop reaches from a new worker, whatever the
    messages, every shard state is stored under its own shard id. *)
Theorem reachable_worker_keyed (msgs : list (Msg Engine RouterEndpoint))
    i (c t b k : string) (o s o2 : N) vb v :
  vbuckets (worker_of (run X msgs (NewVbucketWorker i c t b k o s o2))) !! vb
    = Some v →
  vbno v = vb.
Proof. apply keyed_run, keyed_new. Qed.

(** ** The scratch buffer *)

Lemma transformLoop_cap v m n (l : list (N * Engine)) :
  ∀ (acc : gmap string Data) w,
  (cap (encodeBuf w)
   ≤ cap (encodeBuf (foldl (transformOne X v m n) (acc, w) l).2))%N.
Proof.
  induction l as [|[u e] l IH]; intros acc w; simpl; [done|].
  destruct (TransformRoute X e (vbuuid v) m acc (encodeBuf w) (docval m) n
              (opaque2 w)) as [[acc' newBuf] err] eqn:Htr.
  etrans; [|apply IH]. simpl.
  destruct (cap (encodeBuf w) <? cap newBuf)%N eqn:Hlt; simpl; [|done].
  apply N.ltb_lt in Hlt. lia.
Qed.

Lemma publish_encodeBuf (o : option Data) w :
  encodeBuf (publish X o w) = encodeBuf w.
Proof. apply core_fields, publish_core. Qed.

Lemma broadcast_encodeBuf d w :
  encodeBuf (broadcast2Endpoints X d w) = encodeBuf w.
Proof. apply core_fields, broadcast_core. Qed.

Lemma processMutation_cap v m (engs : gmap N Engine) w :
  (cap (encodeBuf w) ≤ cap (encodeBuf (processMutation X v m engs w)))%N.
Proof.
  destruct (processMutation_spec v m engs w) as (sfx1 & -> & _).
  destruct (deliver_spec (transformAll X v m engs w).1
              (transformAll X v m engs w).2) as [Hc _].
  apply core_fields in Hc as (_ & _ & _ & _ & -> & _).
  apply transformLoop_cap.
Qed.

Lemma handleEvent_cap m w :
  (cap (encodeBuf w) ≤ cap (encodeBuf (handleEvent X m w).1))%N.
Proof.
  unfold handleEvent.
  destruct (Opcode m); destruct (vbuckets w !! VBucket m) as [v|]; simpl;
    try destruct (Status_ m); simpl; repeat case_match; simpl;
    rewrite ?publish_encodeBuf, ?broadcast_encodeBuf; simpl; try done.
  all: by match goal with |- context [processMutation X ?v ?m ?g ?w1] =>
         apply (processMutation_cap v m g w1) end.
Qed.

Lemma step_cap (msg : Msg Engine RouterEndpoint) w :
  (cap (encodeBuf w) ≤ cap (encodeBuf (worker_of (step X msg w))))%N.
Proof.
  assert (Hsd : ∀ w0 : Worker, encodeBuf (shutdown X w0) = encodeBuf w0).
  { intros w0. unfold shutdown. simpl. apply core_fields, streamEndLoop_core. }
  destruct msg as [cmd|[m|]]; simpl.
  - assert (encodeBuf (handleCommand X cmd w).1.1 = encodeBuf w) as He.
    { destruct cmd as [|opq engs eps|opq ks cs| | |]; simpl; try done.
      - by destruct engs, eps.
      - by destruct (delEngines _ _ _ _) as [[?|] ?]. }
    destruct (handleCommand X cmd w) as [[w1 resp] []]; simpl in *;
      rewrite ?Hsd, He; done.
  - unfold runEvent.
    pose proof (handleEvent_cap m (set_stats add_outgoingMut w)) as Hc.
    destruct (handleEvent X m _) as [w1 [v|]]; simpl in *; [|done].
    by repeat case_decide.
  - unfold syncPulse.
    assert (Hl : ∀ (l : list (N * Vbucket)) (w0 : Worker),
              encodeBuf (foldl (syncOne X) w0 l) = encodeBuf w0).
    { induction l as [|kv l IH]; intros w0; simpl; [done|]. rewrite IH.
      unfold syncOne. destruct (makeSyncData X _ _); [|done].
      by rewrite broadcast_encodeBuf. }
    by rewrite Hl.
Qed.

(** X12.  The scratch buffer handed to the engines is carried from event
    to event and never gets smaller: whatever messages the loop handles,
    its capacity afterwards is at least what it was; it is replaced only by
    a buffer an engine returned with a larger capacity. *)
Theorem encodeBuf_never_shrinks (msgs : list (Msg Engine RouterEndpoint)) w :
  (cap (encodeBuf w) ≤ cap (encodeBuf (worker_of (run X msgs w))))%N.
Proof.
  revert w. induction msgs as [|msg msgs IH]; intros w; simpl; [done|].
  pose proof (step_cap msg w) as Hs.
  destruct (step X msg w) as [w1|w1|w1]; simpl in *; try done.
  etrans; [exact Hs|apply IH].
Qed.

(** ** Mutations on an indexed collection *)

(** X13.  A Mutation, Deletion or Expiration on an Open shard whose
    collection has engines calls the transform of every engine installed
    under that collection exactly once, and of no other engine, whether or
    not a transform reports an error; it publishes nothing by broadcast,
    does not count in the updateSeqno statistic, and counts in the shard's
    mutation count. *)
Theorem mutation_transforms_each_engine_once m w v (engs : gmap N Engine) :
  isMutation (Opcode m) = true →
  vbuckets w !! VBucket m = Some v →
  engines w !! CollectionID m = Some engs →
  ∃ sfx,
    trace (handleEvent X m w).1 = trace w ++ sfx ∧
    NoDup (transforms sfx) ∧
    (∀ uuid, uuid ∈ transforms sfx ↔ is_Some (engs !! uuid)) ∧
    publications sfx = [] ∧
    updateSeqno (stats (handleEvent X m w).1) = updateSeqno (stats w) ∧
    mutationCount <$> vbuckets (handleEvent X m w).1 !! VBucket m
      = Some (incr64 (mutationCount v)).
Proof.
  intros Hop Hv He.
  set (v' := set_seqno (Seqno m) (incr_mutationCount v)).
  set (w1 := set_vbuckets (<[VBucket m := v']>) w).
  assert (Hh : handleEvent X m w = (processMutation X v' m engs w1, Some v')).
  { unfold handleEvent. rewrite Hv.
    destruct (Opcode m); try done; simpl; by rewrite He. }
  destruct (processMutation_spec v' m engs w1)
    as (sfx1 & Hpm & _ & _ & _ & _ & _ & Ht1 & Hall & Htr).
  destruct (deliver_spec (transformAll X v' m engs w1).1
              (transformAll X v' m engs w1).2)
    as (_ & sfx & Ht & Hd & _ & _).
  exists (sfx1 ++ sfx). rewrite Hh. simpl.
  rewrite processMutation_vbuckets, processMutation_stats. simpl.
  rewrite lookup_insert_eq, Hpm, Ht, Ht1, <- app_assoc.
  rewrite transforms_app, publications_app, Htr.
  rewrite (delivery_transforms _ sfx Hd), (delivery_publications _ sfx Hd).
  destruct (transform_sendsTo sfx1 "" Hall) as (_ & -> & _).
  rewrite !app_nil_r.
  split; [done|]. split; [apply NoDup_fst_map_to_list|].
  split; [|done].
  intros uuid. rewrite list_elem_of_fmap. split.
  - intros ([u e] & -> & Hin%elem_of_map_to_list). by eexists.
  - intros [e Hin]. exists (uuid, e). by rewrite elem_of_map_to_list.
Qed.

(** ** The consumed-events statistic *)

Lemma handleEvent_outgoingMut m w :
  outgoingMut (stats (handleEvent X m w).1) = outgoingMut (stats w).
Proof.
  unfold handleEvent.
  destruct (Opcode m); destruct (vbuckets w !! VBucket m) as [v|]; simpl;
    try destruct (Status_ m); simpl; repeat case_match; simpl;
    by rewrite ?publish_stats, ?broadcast_stats, ?processMutation_stats.
Qed.

Lemma step_outgoingMut (msg : Msg Engine RouterEndpoint) w :
  outgoingMut (stats (worker_of (step X msg w))) =
  if isEvent msg then incr64 (outgoingMut (stats w))
  else outgoingMut (stats w).
Proof.
  assert (Hsd : ∀ w0 : Worker,
            outgoingMut (stats (shutdown X w0)) = outgoingMut (stats w0)).
  { intros w0. unfold shutdown. simpl. f_equal.
    apply core_fields, streamEndLoop_core. }
  destruct msg as [cmd|[m|]]; simpl.
  - assert (stats (handleCommand X cmd w).1.1 = stats w) as He.
    { destruct cmd as [|opq engs eps|opq ks cs| | |]; simpl; try done.
      - by destruct engs, eps.
      - by destruct (delEngines _ _ _ _) as [[?|] ?]. }
    destruct (handleCommand X cmd w) as [[w1 resp] []]; simpl in *;
      rewrite ?Hsd, He; done.
  - unfold runEvent.
    pose proof (handleEvent_outgoingMut m (set_stats add_outgoingMut w)) as Hc.
    destruct (handleEvent X m _) as [w1 [v|]]; simpl in *; [|done].
    by repeat case_decide.
  - unfold syncPulse.
    assert (Hl : ∀ (l : list (N * Vbucket)) (w0 : Worker),
              stats (foldl (syncOne X) w0 l) = stats w0).
    { induction l as [|kv l IH]; intros w0; simpl; [done|]. rewrite IH.
      unfold syncOne. destruct (makeSyncData X _ _); [|done].
      by rewrite broadcast_stats. }
    by rewrite Hl.
Qed.

(** X15.  While the loop is running, the outgoingMut statistic has counted
    every event taken from the data channel, whether the event was handled
    or dropped, and nothing else: after a schedule that leaves the worker
    running it has grown by the number of events in the schedule, modulo
    2^64. *)
Theorem outgoingMut_counts_events (msgs : list (Msg Engine RouterEndpoint)) w w' :
  run X msgs w = Running w' →
  (outgoingMut (stats w) < 2 ^ 64)%N →
  outgoingMut (stats w') =
  ((outgoingMut (stats w) + N.of_nat (length (filter (λ msg, isEvent msg = true) msgs)))
     mod 2 ^ 64)%N.
Proof.
  revert w. induction msgs as [|msg msgs IH]; intros w Hrun Hlt; simpl in *.
  { injection Hrun as <-. rewrite N.add_0_r. by rewrite N.mod_small. }
  pose proof (step_outgoingMut msg w) as Hs.
  destruct (step X msg w) as [w1|w1|w1]; simpl in *; try done.
  destruct (isEvent msg) eqn:Hev.
  - rewrite filter_cons_True by done. simpl length.
    rewrite (IH w1 Hrun); rewrite Hs; unfold incr64.
    + rewrite N.Div0.add_mod_idemp_l. f_equal. lia.
    + by apply N.mod_lt.
  - rewrite filter_cons_False by (by rewrite Hev).
    rewrite (IH w1 Hrun); by rewrite Hs.
Qed.

(** ** The endpoint table only changes by installs and by failures *)

Lemma deliver_endpoints (dataForEndpoints : gmap string Data) w :
  endpoints (deliver X dataForEndpoints w) ⊆ endpoints w.
Proof.
  destruct (deliver_spec dataForEndpoints w) as (_ & sfx & _ & _ & Hin & Hout).
  apply map_subseteq_spec. intros r ep Hr.
  destruct (endpoints w !! r) as [ep'|] eqn:Hep.
  - destruct (dataForEndpoints !! r) as [d|] eqn:Hd.
    + destruct (Hin r d ep' Hd Hep) as (b & _ & _ & Hend).
      rewrite Hend in Hr. by destruct b.
    + destruct (Hout r (or_introl Hd)) as (_ & _ & Hend). congruence.
  - destruct (Hout r (or_intror Hep)) as (_ & _ & Hend). congruence.
Qed.

Lemma publish_endpoints (o : option Data) w :
  endpoints (publish X o w) ⊆ endpoints w.
Proof.
  destruct (publish_spec o w) as (sfx & _ & _ & _ & _ & _ & Hsub).
  by apply map_subseteq_spec.
Qed.

Lemma processMutation_endpoints v m (engs : gmap N Engine) w :
  endpoints (processMutation X v m engs w) ⊆ endpoints w.
Proof.
  destruct (processMutation_spec v m engs w) as (sfx1 & -> & _ & _ & Hp & _).
  rewrite <- Hp. apply deliver_endpoints.
Qed.

Lemma handleEvent_endpoints m w :
  endpoints (handleEvent X m w).1 ⊆ endpoints w.
Proof.
  unfold handleEvent.
  destruct (Opcode m); destruct (vbuckets w !! VBucket m) as [v|]; simpl;
    try destruct (Status_ m); simpl; repeat case_match; simpl; try done;
    first
      [ by apply (publish_endpoints _ (set_vbuckets _ w))
      | by apply (publish_endpoints _ (set_stats _ (set_vbuckets _ w)))
      | by apply (publish_endpoints _ w)
      | by apply (publish_endpoints (Some _) w)
      | by apply (processMutation_endpoints _ _ _ (set_vbuckets _ w)) ].
Qed.

Lemma shutdown_endpoints w : endpoints (shutdown X w) ⊆ endpoints w.
Proof.
  unfold shutdown. simpl.
  generalize (map_to_list (vbuckets w)). intros l. revert w.
  induction l as [|kv l IH]; intros w; simpl; [done|].
  etrans; [apply IH|apply publish_endpoints].
Qed.

Lemma step_endpoints (msg : Msg Engine RouterEndpoint) w :
  installsEndpoints msg = false →
  endpoints (worker_of (step X msg w)) ⊆ endpoints w.
Proof.
  intros Hmsg. destruct msg as [cmd|[m|]]; simpl.
  - destruct (handleCommand_endpoints cmd w Hmsg) as [He _].
    destruct (handleCommand X cmd w) as [[w1 resp] []]; simpl in *;
      rewrite <- He; try done; apply shutdown_endpoints.
  - unfold runEvent.
    pose proof (handleEvent_endpoints m (set_stats add_outgoingMut w)) as Hc.
    destruct (handleEvent X m _) as [w1 [v|]]; simpl in *; [|done].
    by repeat case_decide.
  - unfold syncPulse. generalize (map_to_list (vbuckets w)). intros l.
    revert w. induction l as [|kv l IH]; intros w; simpl; [done|].
    etrans; [apply IH|]. unfold syncOne.
    destruct (makeSyncData X _ _); [|done].
    apply (publish_endpoints (Some _) (set_vbuckets _ w)).
Qed.

(** X16.  The worker adds no endpoint on its own: as long as no message
    brings a candidate endpoint set, every endpoint in the table was in the
    table before, under the same address. *)
Theorem endpoints_only_shrink (msgs : list (Msg Engine RouterEndpoint)) w :
  Forall (λ msg, installsEndpoints msg = false) msgs →
  endpoints (worker_of (run X msgs w)) ⊆ endpoints w.
Proof.
  intros Hall. revert w.
  induction Hall as [|msg msgs Hmsg _ IH]; intros w; simpl; [done|].
  pose proof (step_endpoints msg w Hmsg) as Hs.
  destruct (step X msg w) as [w1|w1|w1]; simpl in *; try done.
  etrans; [apply IH|exact Hs].
Qed.

(** ** How installs, removals and mutations compose *)

(** X17.  Once Remove Engines has removed every engine installed under a
    collection id, the collection has no entry in the engine map, so a
    Mutation, Deletion or Expiration on that collection calls no engine
    and is counted in the updateSeqno statistic. *)
Theorem removed_collection_takes_update_path opq (ks cs : list N) w m v :
  noEmptyCollection (engines w) →
  length ks ≤ length cs →
  (∀ uuid, is_Some (lookupEngine (engines w) (CollectionID m) uuid) →
           (CollectionID m, uuid) ∈ zip cs ks) →
  isMutation (Opcode m) = true →
  vbuckets w !! VBucket m = Some v →
  ∃ w' sfx,
    handleCommand X (DeleteEngines opq ks cs) w = (w', Some RNil, Next) ∧
    engines w' !! CollectionID m = None ∧
    trace (handleEvent X m w').1 = trace w' ++ sfx ∧
    transforms sfx = [] ∧
    updateSeqno (stats (handleEvent X m w').1) = incr64 (updateSeqno (stats w')).
Proof.
  intros Hne Hlen Hall Hop Hv.
  destruct (delEngines_spec ks cs 0 (engines w)) as [Hsome Hlook].
  pose proof (noEmptyCollection_delEngines ks cs 0 (engines w) Hne) as Hne'.
  specialize (Hlook Hlen). simpl in Hlook.
  destruct (delEngines (engines w) 0 ks cs) as [[e0|] engs'] eqn:Hd;
    simpl in *; [|by destruct (proj2 Hsome (or_introl Hlen))].
  assert (Hcid : engs' !! CollectionID m = None).
  { destruct (engs' !! CollectionID m) as [inner|] eqn:Hin; [|done].
    destruct (map_choose inner) as (uuid & e & He); [by eapply Hne'|].
    pose proof (Hlook (CollectionID m) uuid) as Hl.
    unfold lookupEngine in Hl at 1. rewrite Hin in Hl. simpl in Hl.
    rewrite He in Hl. case_decide as Hz; [done|].
    destruct Hz. apply Hall. by rewrite <- Hl. }
  set (w' := set_engines (λ _, engs') w).
  exists w'. rewrite Hd.
  pose proof (handleEvent_updateSeqno m w' v Hop Hv Hcid) as Hh.
  destruct (publish_spec
              (makeUpdateSeqnoData X (set_seqno (Seqno m) (incr_mutationCount v))
                 m (engines w'))
              (set_stats add_updateSeqno
                 (set_vbuckets
                    (<[VBucket m := set_seqno (Seqno m) (incr_mutationCount v)]>)
                    w'))) as (sfx & Ht & _ & Htr & _).
  exists sfx. rewrite Hh. simpl. rewrite publish_stats.
  split; [done|]. split; [done|]. split; [exact Ht|]. by split.
Qed.

(** X18.  After Install/Replace Engines, a Mutation, Deletion or
    Expiration on an Open shard calls the transform of exactly those
    engines of the install whose collection id is the event's. *)
Theorem installed_engines_transform opq (engs : gmap N Engine)
    (eps : gmap string RouterEndpoint) w m v e0 uuid0 :
  engs !! uuid0 = Some e0 →
  getCidAsUint32 X (GetCollectionID X e0) = CollectionID m →
  isMutation (Opcode m) = true →
  vbuckets w !! VBucket m = Some v →
  ∃ w' sfx,
    w' = (handleCommand X (AddEngines opq engs eps) w).1.1 ∧
    trace (handleEvent X m w').1 = trace w' ++ sfx ∧
    ∀ uuid, uuid ∈ transforms sfx ↔
            ∃ e, engs !! uuid = Some e ∧
                 getCidAsUint32 X (GetCollectionID X e) = CollectionID m.
Proof.
  intros He0 Hcid Hop Hv.
  set (w' := (handleCommand X (AddEngines opq engs eps) w).1.1).
  assert (Hl : ∀ uuid, lookupEngine (engines w') (CollectionID m) uuid =
    engs !! uuid ≫=
      (λ e, if decide (getCidAsUint32 X (GetCollectionID X e) = CollectionID m)
            then Some e else None)).
  { intros uuid. apply (install_engines opq (Some engs) (Some eps)). }
  assert (∃ inner, engines w' !! CollectionID m = Some inner) as [inner Hin].
  { destruct (engines w' !! CollectionID m) as [inner|] eqn:E; [by eexists|].
    pose proof (Hl uuid0) as H0. unfold lookupEngine in H0.
    rewrite E, He0 in H0. simpl in H0. by rewrite decide_True in H0. }
  assert (Hv' : vbuckets w' !! VBucket m = Some v) by done.
  destruct (mutation_transforms_each_engine_once m w' v inner Hop Hv' Hin)
    as (sfx & Ht & _ & Htr & _).
  exists w', sfx. split; [done|]. split; [done|].
  intros uuid. rewrite Htr.
  pose proof (Hl uuid) as Hu. unfold lookupEngine in Hu at 1.
  rewrite Hin in Hu. simpl in Hu. rewrite Hu.
  destruct (engs !! uuid) as [e|]; simpl.
  - case_decide as Hc; split.
    + intros _. by exists e.
    + intros _. by eexists.
    + by intros [? ?].
    + intros (e' & [= <-] & ?). done.
  - split; [by intros [? ?]|by intros (? & ? & ?)].
Qed.

Lemma handleEvent_mutation_state m w v :
  isMutation (Opcode m) = true → vbuckets w !! VBucket m = Some v →
  (handleEvent X m w).2 = Some (set_seqno (Seqno m) (incr_mutationCount v)) ∧
  vbuckets (handleEvent X m w).1
    = <[VBucket m := set_seqno (Seqno m) (incr_mutationCount v)]> (vbuckets w).
Proof.
  intros Hop Hv. unfold handleEvent. rewrite Hv.
  destruct (Opcode m); try done; simpl;
    destruct (engines w !! CollectionID m); simpl;
    by rewrite ?publish_vbuckets, ?processMutation_vbuckets.
Qed.

(** X19.  A run of Mutations, Deletions and Expirations on one Open shard,
    all carrying the correlation id the shard was opened with, leaves the
    worker running with the shard still Open; the shard's sequence number
    is the one of the last event, whatever the order of the sequence
    numbers, its mutation count has grown by the number of events modulo
    2^64, and its epoch id, correlation id and other counters are as they
    were. *)
Theorem mutations_leave_last_seqno (ms : list DcpEvent) w v :
  vbuckets w !! vbno v = Some v →
  (mutationCount v < 2 ^ 64)%N →
  Forall (λ m, isMutation (Opcode m) = true ∧ VBucket m = vbno v ∧
               Opaque m = opaque v) ms →
  ∃ w' v',
    run X ((λ m, FromDatach (vwCmdEvent m)) <$> ms) w = Running w' ∧
    vbuckets w' !! vbno v = Some v' ∧
    seqno v' = default (seqno v) (last (Seqno <$> ms)) ∧
    mutationCount v'
      = ((mutationCount v + N.of_nat (length ms)) mod 2 ^ 64)%N ∧
    vbno v' = vbno v ∧ vbuuid v' = vbuuid v ∧ opaque v' = opaque v ∧
    syncCount v' = syncCount v ∧ sshotCount v' = sshotCount v.
Proof.
  intros Hv Hlt Hall. revert w v Hv Hlt Hall.
  induction ms as [|m ms IH]; intros w v Hv Hlt Hall; simpl.
  { exists w, v. rewrite N.add_0_r, N.mod_small by done. by repeat split. }
  apply Forall_cons in Hall as [(Hop & Hvb & Hopq) Hall].
  unfold runEvent.
  destruct (handleEvent_mutation_state m (set_stats add_outgoingMut w) v)
    as [Hret Hvbs]; [done|by rewrite Hvb|].
  destruct (handleEvent X m (set_stats add_outgoingMut w)) as [w1 ov].
  simpl in Hret, Hvbs. subst ov.
  rewrite decide_False by (intros Heq; by rewrite Heq in Hop).
  simpl. rewrite decide_True by done.
  set (v1 := set_seqno (Seqno m) (incr_mutationCount v)) in *.
  destruct (IH w1 v1) as (w' & v' & Hrun & Hv' & Hseq & Hcnt & Hrest).
  { rewrite Hvbs. simpl. by rewrite Hvb, lookup_insert_eq. }
  { simpl. by apply N.mod_lt. }
  { eapply Forall_impl; [exact Hall|]. by intros m' (? & ? & ?). }
  exists w', v'. split; [exact Hrun|]. split; [exact Hv'|].
  split.
  { rewrite Hseq, last_cons. unfold fmap. simpl.
    by destruct (last (list_fmap DcpEvent N Seqno ms)). }
  split; [|exact Hrest].
  rewrite Hcnt. simpl. unfold incr64.
  rewrite N.Div0.add_mod_idemp_l. f_equal. lia.
Qed.

End Properties.

(** * The theorems at work on the small deployment *)

Lemma wOpen_keyed : keyed wOpen.
Proof. apply keyed_run, keyed_new. Defined.

Lemma seqno_set_by_advancing_opcodes_witness :
  vbuckets wOpen !! 3%N = Some vb3 ∧
  ∃ v', vbuckets (handleEvent deployment (event DCP_MUTATION 3 7 100 5 1)
                    wOpen).1 !! 3%N = Some v' ∧
        seqno v' = 5%N.
Proof.
  assert (H : vbuckets wOpen !! VBucket (event DCP_MUTATION 3 7 100 5 1)
              = Some vb3) by (vm_compute; reflexivity).
  split; [exact H|].
  exact (proj1 (seqno_set_by_advancing_opcodes deployment
                  (event DCP_MUTATION 3 7 100 5 1) wOpen vb3 H) eq_refl).
Defined.

Lemma mutation_without_engine_witness :
  vbuckets wOpen !! 3%N = Some vb3 ∧
  engines wOpen !! 9%N = None ∧
  ∃ v' sfx,
    trace (handleEvent deployment (event DCP_MUTATION 3 7 100 6 9) wOpen).1
      = trace wOpen ++ sfx ∧
    seqno v' = 6%N ∧ transforms sfx = [].
Proof.
  assert (Hv : vbuckets wOpen !! VBucket (event DCP_MUTATION 3 7 100 6 9)
               = Some vb3) by (vm_compute; reflexivity).
  assert (He : engines wOpen !! CollectionID (event DCP_MUTATION 3 7 100 6 9)
               = None) by (vm_compute; reflexivity).
  split; [exact Hv|]. split; [exact He|].
  destruct (mutation_without_engine deployment
              (event DCP_MUTATION 3 7 100 6 9) wOpen vb3 eq_refl Hv He)
    as (v' & sfx & _ & _ & Hs & _ & _ & Ht & Htr & _).
  exists v', sfx. auto.
Defined.

(** C2, as first stated, fails: on [wBare] shard 3 is Open, collection 1
    has no engine and the endpoint ["A"] is in the table, yet a mutation on
    collection 1 publishes nothing and sends nothing to ["A"], because
    [makeUpdateSeqnoData] has no payload to give; the statistic is
    incremented all the same. *)
Lemma mutation_without_engine_not_broadcast :
  isMutation (Opcode mutation315) = true ∧
  vbuckets wBare !! VBucket mutation315
    = Some (NewVbucket "cluster" "topic" "bucket" "keyspace" 7 3 100 0 9) ∧
  engines wBare !! CollectionID mutation315 = None ∧
  endpoints wBare !! "A" = Some true ∧
  publications (trace (handleEvent deployment mutation315 wBare).1)
    = publications (trace wBare) ∧
  sendsTo "A" (trace (handleEvent deployment mutation315 wBare).1)
    = sendsTo "A" (trace wBare) ∧
  updateSeqno (stats (handleEvent deployment mutation315 wBare).1)
    = incr64 (updateSeqno (stats wBare)).
Proof.
  split; [reflexivity|].
  split; [vm_compute; reflexivity|].
  split; [vm_compute; reflexivity|].
  split; [vm_compute; reflexivity|].
  split; [vm_compute; reflexivity|].
  split; vm_compute; reflexivity.
Defined.

(** C3, as first stated, fails for Remove Engines: after both engines are
    removed no installed engine references ["A"], and ["A"] is still in
    the endpoint table. *)
Lemma endpoints_not_recomputed_on_remove :
  endpoints wRemoved !! "A" = Some true ∧
  ¬ referenced deployment (engines wRemoved) "A".
Proof.
  split; [vm_compute; reflexivity|].
  assert (engines wRemoved = ∅) as -> by (vm_compute; reflexivity).
  intros (cid & inner & _ & _ & Hc & _). by rewrite lookup_empty in Hc.
Defined.

(** C4, as first stated, fails: [wTwo] holds two Open shards whose
    StreamBegin the endpoint ["A"] has received, and Close publishes no
    StreamEnd at all before the worker terminates, because
    [makeStreamEndData] has no payload to give: ["A"] is sent nothing
    more. *)
Lemma close_without_stream_end :
  size (vbuckets wTwo) = 2 ∧
  endpoints wTwo !! "A" = Some true ∧
  sendsTo "A" (trace wTwo)
    = [(StreamBegin 1 100 10 0 0, false); (StreamBegin 2 100 20 0 0, false)] ∧
  step deployment (FromSbch vwCmdClose) wTwo
    = Terminated (shutdown deployment wTwo) ∧
  publications (trace (shutdown deployment wTwo)) = publications (trace wTwo) ∧
  sendsTo "A" (trace (shutdown deployment wTwo)) = sendsTo "A" (trace wTwo) ∧
  finch (shutdown deployment wTwo) = true ∧
  IsClosed (stats (shutdown deployment wTwo)) = true.
Proof.
  split; [vm_compute; reflexivity|].
  split; [vm_compute; reflexivity|].
  split; [vm_compute; reflexivity|].
  split; [vm_compute; reflexivity|].
  split; [vm_compute; reflexivity|].
  split; [vm_compute; reflexivity|].
  split; vm_compute; reflexivity.
Defined.

Lemma duplicate_stream_begin_rejected_witness :
  vbuckets wOpen !! 3%N = Some vb3 ∧
  handleEvent deployment (event DCP_STREAMREQ 3 7 555 42 0) wOpen
    = (wOpen, Some vb3).
Proof.
  assert (H : vbuckets wOpen !! VBucket (event DCP_STREAMREQ 3 7 555 42 0)
              = Some vb3) by (vm_compute; reflexivity).
  split; [exact H|].
  exact (proj1 (duplicate_stream_begin_rejected deployment
                  (event DCP_STREAMREQ 3 7 555 42 0) wOpen vb3
                  eq_refl eq_refl H)).
Defined.

(** C7, as first stated, fails both ways: a mutation whose epoch id
    differs from the shard's and whose correlation id agrees is handled and
    the loop goes on; a mutation whose epoch id agrees and whose
    correlation id differs ends the process. *)
Lemma epoch_mismatch_does_not_exit :
  vbuckets wOpen !! 3%N = Some vb3 ∧ vbuuid vb3 = 100%N ∧ opaque vb3 = 7%N ∧
  step deployment
    (FromDatach (vwCmdEvent (event DCP_MUTATION 3 7 999 5 1))) wOpen
  = Running (runEvent deployment (event DCP_MUTATION 3 7 999 5 1) wOpen).1 ∧
  step deployment
    (FromDatach (vwCmdEvent (event DCP_MUTATION 3 8 100 5 1))) wOpen
  = Exited (runEvent deployment (event DCP_MUTATION 3 8 100 5 1) wOpen).1.
Proof.
  split; [vm_compute; reflexivity|].
  split; [reflexivity|]. split; [reflexivity|].
  split; vm_compute; reflexivity.
Defined.

Lemma event_for_absent_shard_dropped_witness :
  vbuckets wOpen !! 4%N = None ∧
  handleEvent deployment (event DCP_MUTATION 4 7 100 5 1) wOpen
    = (wOpen, None).
Proof.
  assert (H : vbuckets wOpen !! VBucket (event DCP_MUTATION 4 7 100 5 1)
              = None) by (vm_compute; reflexivity).
  split; [exact H|].
  exact (proj1 (event_for_absent_shard_dropped deployment
                  (event DCP_MUTATION 4 7 100 5 1) wOpen eq_refl H)).
Defined.

Lemma AddEngines_replaces_engine_map_witness :
  keyed wOpen ∧
  ∃ w' cs,
    handleCommand deployment
      (AddEngines 7 {[ 13%N := engine3 ]} {[ "A" := true; "C" := true ]}) wOpen
      = (w', Some (RSeqnos cs), Next) ∧
    lookupEngine (engines w') 1 11 = None ∧
    lookupEngine (engines w') 1 13 = Some engine3 ∧
    cs !! 3%N = Some 0%N.
Proof.
  split; [exact wOpen_keyed|].
  destruct (AddEngines_replaces_engine_map deployment 7 {[ 13%N := engine3 ]}
              {[ "A" := true; "C" := true ]} wOpen wOpen_keyed)
    as (w' & cs & Hcmd & Hengs & _ & _ & Hcs).
  exists w', cs. split; [exact Hcmd|].
  rewrite !Hengs, Hcs.
  split; [vm_compute; reflexivity|]. split; vm_compute; reflexivity.
Defined.

Lemma nil_engines_leave_only_update_seqno_witness :
  engines wBare = ∅ ∧
  ∃ sfx,
    trace (handleEvent deployment (event DCP_MUTATION 3 7 100 5 1) wBare).1
      = trace wBare ++ sfx ∧
    transforms sfx = [].
Proof.
  assert (H : engines wBare = ∅) by (vm_compute; reflexivity).
  split; [exact H|].
  destruct (nil_engines_leave_only_update_seqno deployment
              (event DCP_MUTATION 3 7 100 5 1) wBare H eq_refl)
    as (_ & _ & _ & sfx & Ht & Htr & _).
  by exists sfx.
Defined.

(** C10, as first stated, fails in its last part: after an install with a
    nil engines map the engine map is empty, shard 3 is still Open, and a
    mutation produces no signal at all, because [makeUpdateSeqnoData] has
    no payload to give; the event is counted in the updateSeqno statistic
    all the same. *)
Lemma nil_install_then_mutation_publishes_nothing :
  engines wReset = ∅ ∧
  vbuckets wReset !! VBucket mutation315 = Some vb3 ∧
  trace (handleEvent deployment mutation315 wReset).1 = trace wReset ∧
  updateSeqno (stats (handleEvent deployment mutation315 wReset).1)
    = incr64 (updateSeqno (stats wReset)).
Proof.
  split; [vm_compute; reflexivity|].
  split; [vm_compute; reflexivity|].
  split; vm_compute; reflexivity.
Defined.


(** C8, as first stated, fails for one counter: a mutation for shard 4,
    which is not Open, is dropped, and the loop has counted it in the
    outgoingMut statistic. *)
Lemma dropped_event_counted_as_consumed :
  isDataEvent (Opcode mutation4) = true ∧
  vbuckets wOpen !! VBucket mutation4 = None ∧
  outgoingMut (stats wOpen) = 1%N ∧
  outgoingMut
    (stats (worker_of (step deployment (FromDatach (vwCmdEvent mutation4))
                         wOpen))) = 2%N.
Proof.
  split; [reflexivity|].
  split; [vm_compute; reflexivity|].
  split; vm_compute; reflexivity.
Defined.

(** * The further theorems at work on the small deployment *)

Lemma stream_begin_opens_shard_witness :
  vbuckets wOpen !! 5%N = None ∧
  ∃ v, (handleEvent deployment (event DCP_STREAMREQ 5 7 100 0 0) wOpen).2
         = Some v ∧
       vbuckets (handleEvent deployment (event DCP_STREAMREQ 5 7 100 0 0)
                   wOpen).1 = <[5%N := v]> (vbuckets wOpen).
Proof.
  assert (H : vbuckets wOpen !! VBucket (event DCP_STREAMREQ 5 7 100 0 0)
              = None) by (vm_compute; reflexivity).
  split; [exact H|].
  destruct (stream_begin_opens_shard deployment
              (event DCP_STREAMREQ 5 7 100 0 0) wOpen eq_refl eq_refl H)
    as (v & sfx & H1 & H2 & _).
  by exists v.
Defined.

Lemma failed_stream_begin_keeps_shards_witness :
  vbuckets (handleEvent deployment failedBegin wOpen).1 = vbuckets wOpen.
Proof.
  destruct (failed_stream_begin_keeps_shards deployment failedBegin wOpen 1
              eq_refl eq_refl) as (v & sfx & _ & _ & H & _).
  exact H.
Defined.

Lemma stream_end_closes_shard_witness :
  ∃ w', step deployment
          (FromDatach (vwCmdEvent (event DCP_STREAMEND 3 7 100 0 0))) wOpen
        = Running w' ∧
        vbuckets w' !! 3%N = None.
Proof.
  exact (proj2 (stream_end_closes_shard deployment
                  (event DCP_STREAMEND 3 7 100 0 0) wOpen eq_refl)).
Defined.

Lemma snapshot_counted_when_published_witness :
  vbuckets wOpen !! 3%N = Some vb3 ∧
  ∃ sfx,
    vbuckets (handleEvent deployment (event DCP_SNAPSHOT 3 7 100 0 0) wOpen).1
      = <[3%N := incr_sshotCount vb3]> (vbuckets wOpen) ∧
    publications sfx = [Snapshot 3].
Proof.
  assert (H : vbuckets wOpen !! VBucket (event DCP_SNAPSHOT 3 7 100 0 0)
              = Some vb3) by (vm_compute; reflexivity).
  split; [exact H|].
  pose proof (snapshot_counted_when_published deployment
                (event DCP_SNAPSHOT 3 7 100 0 0) wOpen vb3 eq_refl H) as Hs.
  assert (Hd : makeSnapshotData deployment vb3
                 (event DCP_SNAPSHOT 3 7 100 0 0) (engines wOpen)
               = Some (Snapshot 3)) by (vm_compute; reflexivity).
  rewrite Hd in Hs. destruct Hs as (sfx & _ & Hv & _ & Hp & _).
  by exists sfx.
Defined.

Lemma delete_engines_removes_pairs_witness :
  length [11%N] ≤ length [1%N] ∧
  ∃ w', handleCommand deployment (DeleteEngines 7 [11%N] [1%N]) wOpen
          = (w', Some RNil, Next) ∧
        lookupEngine (engines w') 1 11 = None ∧
        lookupEngine (engines w') 2 12 = lookupEngine (engines wOpen) 2 12.
Proof.
  assert (H : length [11%N] ≤ length [1%N]) by (simpl; lia).
  split; [exact H|].
  destruct (delete_engines_removes_pairs deployment 7 [11%N] [1%N] wOpen H)
    as (w' & Hc & Hl & _).
  exists w'. split; [exact Hc|]. rewrite !Hl. split; reflexivity.
Defined.

Lemma delete_engines_short_ids_terminates_witness :
  length [1%N] < length [11%N; 12%N] ∧
  ∃ w', step deployment (FromSbch (DeleteEngines 7 [11%N; 12%N] [1%N])) wOpen
          = Terminated w' ∧
        finch w' = true.
Proof.
  assert (H : length [1%N] < length [11%N; 12%N]) by (simpl; lia).
  split; [exact H|].
  destruct (delete_engines_short_ids_terminates deployment 7 [11%N; 12%N]
              [1%N] wOpen H) as (w1 & w' & _ & Hs & _ & Hf & _).
  by exists w'.
Defined.

Lemma GetVbuckets_lists_open_shards_witness :
  keyed wOpen ∧
  ∃ vbs, handleCommand deployment vwCmdGetVbuckets wOpen
           = (wOpen, Some (RVbuckets vbs), Next) ∧
         length vbs = size (vbuckets wOpen).
Proof.
  split; [exact wOpen_keyed|].
  destruct (GetVbuckets_lists_open_shards deployment wOpen wOpen_keyed)
    as (vbs & Hc & Hl & _).
  by exists vbs.
Defined.

Lemma reachable_worker_keyed_witness :
  vbuckets (worker_of (run deployment [install12; begin 3 0]
              (NewVbucketWorker 0 "cluster" "topic" "bucket" "keyspace" 7 16 9)))
    !! 3%N = Some vb3 ∧
  vbno vb3 = 3%N.
Proof.
  assert (H : vbuckets (worker_of (run deployment [install12; begin 3 0]
              (NewVbucketWorker 0 "cluster" "topic" "bucket" "keyspace" 7 16 9)))
              !! 3%N = Some vb3) by (vm_compute; reflexivity).
  split; [exact H|].
  exact (reachable_worker_keyed deployment _ _ _ _ _ _ _ _ _ _ _ H).
Defined.

Lemma mutation_transforms_each_engine_once_witness :
  vbuckets wOpen !! 3%N = Some vb3 ∧
  engines wOpen !! 1%N = Some {[ 11%N := engine1 ]} ∧
  ∃ sfx,
    trace (handleEvent deployment mutation315 wOpen).1 = trace wOpen ++ sfx ∧
    (11%N ∈ transforms sfx) ∧ publications sfx = [].
Proof.
  assert (Hv : vbuckets wOpen !! VBucket mutation315 = Some vb3)
    by (vm_compute; reflexivity).
  assert (He : engines wOpen !! CollectionID mutation315
               = Some {[ 11%N := engine1 ]}) by (vm_compute; reflexivity).
  split; [exact Hv|]. split; [exact He|].
  destruct (mutation_transforms_each_engine_once deployment mutation315 wOpen
              vb3 {[ 11%N := engine1 ]} eq_refl Hv He)
    as (sfx & Ht & _ & Hin & Hp & _).
  exists sfx. split; [exact Ht|]. split; [|exact Hp].
  apply Hin. exists engine1. vm_compute. reflexivity.
Defined.

Lemma duplicate_stream_begin_exit_witness :
  vbuckets wOpen !! 3%N = Some vb3 ∧
  ∃ w', step deployment
          (FromDatach (vwCmdEvent (event DCP_STREAMREQ 3 8 100 0 0))) wOpen
        = Exited w'.
Proof.
  assert (H : vbuckets wOpen !! VBucket (event DCP_STREAMREQ 3 8 100 0 0)
              = Some vb3) by (vm_compute; reflexivity).
  split; [exact H|].
  eexists.
  exact (duplicate_stream_begin_exit deployment
           (event DCP_STREAMREQ 3 8 100 0 0) wOpen vb3 eq_refl eq_refl H).
Defined.

Lemma outgoingMut_counts_events_witness :
  run deployment schedule3 worker0 = Running (after schedule3) ∧
  outgoingMut (stats (after schedule3)) = 2%N.
Proof.
  assert (H : run deployment schedule3 worker0 = Running (after schedule3))
    by (vm_compute; reflexivity).
  split; [exact H|].
  rewrite (outgoingMut_counts_events deployment schedule3 worker0
             (after schedule3) H); [reflexivity|].
  vm_compute. reflexivity.
Defined.

Lemma endpoints_only_shrink_witness :
  Forall (λ msg, installsEndpoints msg = false)
    [mutation 3 5 1; FromDatach vwCmdSyncPulse] ∧
  endpoints (worker_of (run deployment
               [mutation 3 5 1; FromDatach vwCmdSyncPulse] wOpen))
    ⊆ endpoints wOpen.
Proof.
  assert (H : Forall (λ msg : Msg IndexEngine bool, installsEndpoints msg = false)
                [mutation 3 5 1; FromDatach vwCmdSyncPulse]).
  { constructor; [reflexivity|]. constructor; [reflexivity|]. constructor. }
  split; [exact H|].
  exact (endpoints_only_shrink deployment _ wOpen H).
Defined.

Lemma wOpen_noEmptyCollection : noEmptyCollection (engines wOpen).
Proof. apply noEmptyCollection_run, noEmptyCollection_new. Defined.

Lemma removed_collection_takes_update_path_witness :
  noEmptyCollection (engines wOpen) ∧
  vbuckets wOpen !! 3%N = Some vb3 ∧
  ∃ w' sfx,
    handleCommand deployment (DeleteEngines 7 [11%N] [1%N]) wOpen
      = (w', Some RNil, Next) ∧
    engines w' !! 1%N = None ∧
    trace (handleEvent deployment mutation315 w').1 = trace w' ++ sfx ∧
    transforms sfx = [].
Proof.
  assert (Hv : vbuckets wOpen !! VBucket mutation315 = Some vb3)
    by (vm_compute; reflexivity).
  assert (Hlen : length [11%N] ≤ length [1%N]) by (simpl; lia).
  assert (Hall : ∀ uuid,
            is_Some (lookupEngine (engines wOpen) (CollectionID mutation315) uuid) →
            (CollectionID mutation315, uuid) ∈ zip [1%N] [11%N]).
  { assert (He : engines wOpen !! CollectionID mutation315
                 = Some {[ 11%N := engine1 ]}) by (vm_compute; reflexivity).
    intros uuid [e Hl]. unfold lookupEngine in Hl. rewrite He in Hl.
    simpl in Hl. apply lookup_singleton_Some in Hl as [<- _]. left. }
  split; [exact wOpen_noEmptyCollection|]. split; [exact Hv|].
  destruct (removed_collection_takes_update_path deployment 7 [11%N] [1%N]
              wOpen mutation315 vb3 wOpen_noEmptyCollection Hlen Hall
              eq_refl Hv) as (w' & sfx & Hc & He & Ht & Htr & _).
  by exists w', sfx.
Defined.

Lemma installed_engines_transform_witness :
  ({[ 13%N := engine3 ]} : gmap N IndexEngine) !! 13%N = Some engine3 ∧
  vbuckets wOpen !! 3%N = Some vb3 ∧
  ∃ w' sfx,
    trace (handleEvent deployment mutation315 w').1 = trace w' ++ sfx ∧
    13%N ∈ transforms sfx ∧ 11%N ∉ transforms sfx.
Proof.
  assert (H13 : ({[ 13%N := engine3 ]} : gmap N IndexEngine) !! 13%N
                = Some engine3) by (vm_compute; reflexivity).
  assert (Hv : vbuckets wOpen !! VBucket mutation315 = Some vb3)
    by (vm_compute; reflexivity).
  split; [exact H13|]. split; [exact Hv|].
  destruct (installed_engines_transform deployment 7 {[ 13%N := engine3 ]}
              {[ "A" := true ]} wOpen mutation315 vb3 engine3 13
              H13 eq_refl eq_refl Hv) as (w' & sfx & _ & Ht & Hin).
  exists w', sfx. split; [exact Ht|]. split.
  - apply Hin. by exists engine3.
  - intros (e & He & _)%Hin. vm_compute in He. discriminate He.
Defined.

Lemma mutations_leave_last_seqno_witness :
  vbuckets wOpen !! vbno vb3 = Some vb3 ∧
  ∃ w' v',
    run deployment
      [FromDatach (vwCmdEvent (event DCP_MUTATION 3 7 100 5 1));
       FromDatach (vwCmdEvent (event DCP_DELETION 3 7 100 4 2))] wOpen
      = Running w' ∧
    vbuckets w' !! 3%N = Some v' ∧ seqno v' = 4%N ∧ mutationCount v' = 2%N.
Proof.
  assert (Hv : vbuckets wOpen !! vbno vb3 = Some vb3)
    by (vm_compute; reflexivity).
  split; [exact Hv|].
  destruct (mutations_leave_last_seqno deployment
              [event DCP_MUTATION 3 7 100 5 1; event DCP_DELETION 3 7 100 4 2]
              wOpen vb3 Hv)
    as (w' & v' & Hrun & Hv' & Hs & Hc & _).
  - vm_compute. reflexivity.
  - constructor; [by repeat split|]. constructor; [by repeat split|].
    constructor.
  - exists w', v'. split; [exact Hrun|]. split; [exact Hv'|].
    split; [exact Hs|]. rewrite Hc. reflexivity.
Defined.

(** * Partition instances *)

Section PartitionProperties.

Context {PartitionDefn SliceContainer : Type}.
Variable GetPartitionId : PartitionDefn → N.

Abbreviation Inst := (@PartitionInst PartitionDefn SliceContainer).

Lemma foldl_insert_lookup {B C} (f : B → C) (l : list (N * B)) k :
  NoDup l.*1 → ∀ acc : gmap N C,
  foldl (λ acc kv, <[kv.1 := f kv.2]> acc) acc l !! k =
  match (list_to_map l : gmap N B) !! k with
  | Some b => Some (f b)
  | None => acc !! k
  end.
Proof.
  induction l as [|[k0 b0] l IH]; intros Hnd acc; [done|].
  apply NoDup_cons in Hnd as [Hk Hnd]. simpl. rewrite IH by done.
  destruct (decide (k = k0)) as [->|Hne].
  - by rewrite lookup_insert_eq, (not_elem_of_list_to_map_1 l k0 Hk),
      lookup_insert_eq.
  - by rewrite !lookup_insert_ne by done.
Qed.

Lemma foldl_insert_map {B C} (f : B → C) (m : gmap N B) :
  foldl (λ acc kv, <[kv.1 := f kv.2]> acc) ∅ (map_to_list m) = f <$> m.
Proof.
  apply map_eq. intros k.
  rewrite foldl_insert_lookup by apply NoDup_fst_map_to_list.
  rewrite list_to_map_to_list, lookup_fmap, lookup_empty.
  by destruct (m !! k).
Qed.

(** X20.  The copy [CopyIndexPartnMap] returns holds exactly what the
    map it was given holds: the same index instances, each with the same
    partitions. *)
Theorem CopyIndexPartnMap_same (inMap : gmap N (gmap N Inst)) :
  CopyIndexPartnMap inMap = inMap.
Proof.
  unfold CopyIndexPartnMap.
  rewrite (foldl_insert_map
             (λ pm : gmap N Inst,
                foldl (λ pmap ii, <[ii.1 := ii.2]> pmap) ∅ (map_to_list pm))).
  apply map_eq. intros k. rewrite lookup_fmap.
  destruct (inMap !! k) as [pm|]; simpl; [|done]. f_equal.
  rewrite (foldl_insert_map (λ x : Inst, x)). apply map_fmap_id.
Qed.

Lemma at_index_Some {A} (s : list A) i :
  is_Some (at_index s i) ↔ (0 ≤ i < Z.of_nat (length s))%Z.
Proof.
  unfold at_index. case_decide.
  - rewrite lookup_lt_is_Some. lia.
  - split; [by intros [? ?]|lia].
Qed.

(** X21.  [Swap] panics exactly when one of its indices is outside the
    list; otherwise it exchanges the two entries and touches no other, so
    that the length stays, swapping again undoes it, and [Less] on the
    swapped positions answers as it did on the exchanged ones. *)
Theorem Swap_exchanges (s : list Inst) i j :
  (is_Some (Swap s i j) ↔ (0 ≤ i < Len s)%Z ∧ (0 ≤ j < Len s)%Z) ∧
  ∀ s', Swap s i j = Some s' →
    Len s' = Len s ∧
    at_index s' i = at_index s j ∧ at_index s' j = at_index s i ∧
    (∀ k, k ≠ i → k ≠ j → at_index s' k = at_index s k) ∧
    Swap s' i j = Some s ∧
    Less GetPartitionId s' i j = Less GetPartitionId s j i.
Proof.
  unfold Len. split.
  - rewrite <- !at_index_Some. unfold Swap.
    destruct (at_index s j), (at_index s i); split;
      try (intros [[? ?] [? ?]]; done); try (intros [? ?]; done); eauto.
  - intros s'. unfold Swap.
    destruct (at_index s j) as [sj|] eqn:Hj; [|done].
    destruct (at_index s i) as [si|] eqn:Hi; [|done].
    intros [= <-].
    assert (Hri : (0 ≤ i < Z.of_nat (length s))%Z) by (apply at_index_Some; eauto).
    assert (Hrj : (0 ≤ j < Z.of_nat (length s))%Z) by (apply at_index_Some; eauto).
    assert (Hi' : s !! Z.to_nat i = Some si).
    { unfold at_index in Hi. by rewrite decide_True in Hi by lia. }
    assert (Hj' : s !! Z.to_nat j = Some sj).
    { unfold at_index in Hj. by rewrite decide_True in Hj by lia. }
    assert (Hat : ∀ k, at_index (<[Z.to_nat j := si]> (<[Z.to_nat i := sj]> s)) k
               = if decide (k = j) then Some si
                 else if decide (k = i) then Some sj else at_index s k).
    { intros k. unfold at_index. destruct (decide (0 ≤ k)%Z) as [Hk|Hk].
      - destruct (decide (k = j)) as [->|Hkj].
        + rewrite list_lookup_insert_eq; [done|rewrite length_insert; lia].
        + rewrite list_lookup_insert_ne by lia.
          destruct (decide (k = i)) as [->|Hki].
          * rewrite list_lookup_insert_eq; [done|lia].
          * by rewrite list_lookup_insert_ne by lia.
      - rewrite !decide_False by lia. done. }
    assert (Hsame : i = j → si = sj).
    { intros ->. congruence. }
    split; [by rewrite !length_insert|].
    split.
    { rewrite Hat. case_decide; [f_equal; auto|by rewrite decide_True]. }
    split; [by rewrite Hat, decide_True|].
    split; [intros k ??; by rewrite Hat, !decide_False|].
    split.
    + rewrite !Hat. rewrite (decide_True (P := j = j)) by done.
      rewrite (decide_True (P := i = i)) by done.
      assert (Hset : ∀ x y : Inst,
        <[Z.to_nat j := x]> (<[Z.to_nat i := y]>
          (<[Z.to_nat j := si]> (<[Z.to_nat i := sj]> s))) =
        <[Z.to_nat j := x]> (<[Z.to_nat i := y]> s)).
      { intros x y. apply list_eq. intros n.
        destruct (decide (n = Z.to_nat j)) as [->|Hnj].
        - rewrite !list_lookup_insert_eq; [done|rewrite ?length_insert; lia..].
        - rewrite !(list_lookup_insert_ne _ (Z.to_nat j)) by done.
          destruct (decide (n = Z.to_nat i)) as [->|Hni].
          + rewrite !list_lookup_insert_eq; [done|rewrite ?length_insert; lia..].
          + by rewrite !list_lookup_insert_ne by done. }
      case_decide as Hij; f_equal; rewrite Hset; apply list_eq; intros n.
      * rewrite (Hsame Hij) in *. subst i.
        destruct (decide (n = Z.to_nat j)) as [->|Hnj].
        -- rewrite list_lookup_insert_eq; [done|rewrite length_insert; lia].
        -- by rewrite !list_lookup_insert_ne by done.
      * destruct (decide (n = Z.to_nat j)) as [->|Hnj].
        -- rewrite list_lookup_insert_eq; [done|rewrite length_insert; lia].
        -- rewrite list_lookup_insert_ne by done.
           destruct (decide (n = Z.to_nat i)) as [->|Hni].
           ++ rewrite list_lookup_insert_eq; [done|lia].
           ++ by rewrite list_lookup_insert_ne by done.
    + unfold Less. rewrite !Hat.
      rewrite (decide_True (P := j = j)) by done.
      rewrite Hi, Hj. case_decide as Hij.
      * by rewrite (Hsame Hij).
      * by rewrite decide_True.
Qed.

End PartitionProperties.

End Projector.
